(** * deafen-python: the Discord audio controller

    A shallow embedding of [discord_audio_controller.py]: the parser of
    [pactl list sink-inputs] / [pactl list source-outputs], the selection of
    the Discord streams and the mute operations, together with the
    properties of its specification.

    Text.  A Python [str] is modelled as a [string], one [ascii] per code
    point; the model therefore covers the code points below 256.  On that
    range [str.lower], [str.strip] and the regular-expression class [\d]
    are written out exactly as CPython implements them.

    Effects.  The only effect of the controller is [subprocess.run]; it is
    a parameter [pactl] of the development, acting on an abstract [World].
    Every call is recorded, with the way the process ended, in a trace.

    Exceptions.  [subprocess.run] raises [CalledProcessError] on a return
    code other than zero, an [OSError] when the process cannot be started
    and [UnicodeDecodeError] when its output is no text; [int] raises
    [ValueError] on more than 4300 digits, the default limit of CPython.
    [_run_command] catches the first of them only. *)

From Stdlib Require Import String Ascii List Bool Arith ZArith NArith Lia.
From Stdlib Require Import DecimalString.
Import ListNotations.

Local Open Scope string_scope.
Local Open Scope list_scope.

(** ** Python strings *)

Module PyStr.

(** The characters that cannot be written inside a string literal here. *)
Definition dquote : ascii := "034"%char.
Definition LF : ascii := "010"%char.

(** [quoted s] is [s] between double quotes. *)
Definition quoted (s : string) : string :=
  String dquote (s ++ String dquote EmptyString).

(** [bool(s)]: a string is true when it is not empty. *)
Definition truthy (s : string) : bool :=
  match s with EmptyString => false | String _ _ => true end.

(** [lo <= n <= hi] *)
Definition between (lo hi n : nat) : bool := Nat.leb lo n && Nat.leb n hi.

(** [str.isspace] on one code point below 256: TAB..CR, FS..US, space,
    NEL and NBSP. *)
Definition isspace (c : ascii) : bool :=
  let n := nat_of_ascii c in
  between 9 13 n || between 28 32 n || Nat.eqb n 133 || Nat.eqb n 160.

(** The class [\d] of [re] on one code point below 256: of the decimal
    digits of Unicode, the ten digits 0 to 9 lie in that range. *)
Definition isdigit (c : ascii) : bool :=
  between 48 57 (nat_of_ascii c).

(** [str.lower] on one code point below 256: A..Z and the capital
    letters of Latin-1 (U+00C0..U+00DE except the multiplication sign). *)
Definition lower_char (c : ascii) : ascii :=
  let n := nat_of_ascii c in
  if between 65 90 n || (between 192 222 n && negb (Nat.eqb n 215))
  then ascii_of_nat (n + 32) else c.

Fixpoint lower (s : string) : string :=
  match s with
  | EmptyString => EmptyString
  | String c r => String (lower_char c) (lower r)
  end.

Fixpoint lstrip (s : string) : string :=
  match s with
  | EmptyString => EmptyString
  | String c r => if isspace c then lstrip r else s
  end.

Fixpoint rstrip (s : string) : string :=
  match s with
  | EmptyString => EmptyString
  | String c r =>
      let r' := rstrip r in
      if isspace c && negb (truthy r') then EmptyString else String c r'
  end.

(** [s.strip()] *)
Definition strip (s : string) : string := rstrip (lstrip s).

(** [s.startswith(p)] *)
Fixpoint startswith (p s : string) : bool :=
  match p, s with
  | EmptyString, _ => true
  | String a p', String b s' => Ascii.eqb a b && startswith p' s'
  | String _ _, EmptyString => false
  end.

(** [p in s] *)
Fixpoint contains (p s : string) : bool :=
  startswith p s ||
  match s with
  | EmptyString => false
  | String _ s' => contains p s'
  end.

(** [s.split('\n')] *)
Fixpoint split_lines (s : string) : list string :=
  match s with
  | EmptyString => [EmptyString]
  | String c r =>
      if Ascii.eqb c LF then EmptyString :: split_lines r
      else match split_lines r with
           | h :: t => String c h :: t
           | [] => [String c EmptyString]
           end
  end.

(** The longest run of digits at the head of [s], and what follows it. *)
Fixpoint take_digits (s : string) : string :=
  match s with
  | EmptyString => EmptyString
  | String c r => if isdigit c then String c (take_digits r) else EmptyString
  end.

Fixpoint drop_digits (s : string) : string :=
  match s with
  | EmptyString => EmptyString
  | String c r => if isdigit c then drop_digits r else s
  end.

(** The number a string of digits writes. *)
Definition int_of_digits (s : string) : N :=
  let fix go (acc : N) (s : string) : N :=
    match s with
    | EmptyString => acc
    | String c r => go (10 * acc + (N_of_ascii c - 48))%N r
    end in
  go 0%N s.

(** [sys.int_info.default_max_str_digits], the limit of CPython on the
    number of digits [int] converts. *)
Definition max_str_digits : nat := 4300.

(** [int(s)] for a string of digits; [None] stands for the
    [ValueError] that [int] raises on more than [max_str_digits] digits
    (leading zeros count). *)
Definition int (s : string) : option N :=
  if Nat.ltb max_str_digits (String.length s) then None
  else Some (int_of_digits s).

(** [re.search(r'#(\d+)', s)], group 1: the digits after the leftmost
    [#] that is followed by a digit. *)
Fixpoint search_hash_digits (s : string) : option string :=
  match s with
  | EmptyString => None
  | String c r =>
      if Ascii.eqb c "#"
      then match take_digits r with
           | EmptyString => search_hash_digits r
           | String d ds => Some (String d ds)
           end
      else search_hash_digits r
  end.

(** The characters of [s] before its first double quote, when it has one:
    the group of non-quote characters and the closing quote of the
    pattern, anchored at the head of [s]. *)
Fixpoint until_quote (s : string) : option string :=
  match s with
  | EmptyString => None
  | String c r =>
      if Ascii.eqb c dquote then Some EmptyString
      else match until_quote r with
           | Some v => Some (String c v)
           | None => None
           end
  end.

(** [s] without its first [n] characters. *)
Fixpoint skip (n : nat) (s : string) : string :=
  match n, s with
  | O, _ => s
  | S n', String _ r => skip n' r
  | S _, EmptyString => EmptyString
  end.

Definition app_name_key : string := "application.name = " ++ String dquote EmptyString.

(** [re.search] of the application-name pattern, group 1: the key
    [application.name = ] and an opening double quote, a group of
    characters other than the double quote, and a closing double quote.
    The match is the leftmost occurrence of the key that has a closing
    quote after it. *)
Fixpoint search_app_name (s : string) : option string :=
  match (if startswith app_name_key s
         then until_quote (skip (String.length app_name_key) s)
         else None) with
  | Some v => Some v
  | None =>
      match s with
      | EmptyString => None
      | String _ r => search_app_name r
      end
  end.

(** [re.search(r'(\d+)%', s)], group 1: the leftmost run of digits that
    a percent sign follows. *)
Definition digits_percent_at (s : string) : option string :=
  match take_digits s with
  | EmptyString => None
  | String d ds =>
      match drop_digits s with
      | String c _ => if Ascii.eqb c "%" then Some (String d ds) else None
      | EmptyString => None
      end
  end.

Fixpoint search_digits_percent (s : string) : option string :=
  match digits_percent_at s with
  | Some v => Some v
  | None =>
      match s with
      | EmptyString => None
      | String _ r => search_digits_percent r
      end
  end.

(** [str(n)] for a natural number. *)
Definition str_of_nat (n : nat) : string :=
  NilZero.string_of_uint (Nat.to_uint n).

(** [sep.join(l)] with [sep] a line feed. *)
Fixpoint unlines (l : list string) : string :=
  match l with
  | [] => EmptyString
  | [s] => s
  | s :: rest => s ++ String LF (unlines rest)
  end.

End PyStr.

Import PyStr.

(** ** Data model *)

(** One stream reported by pactl: the dict built by the parser.  Its keys
    are a fixed set, each with one type of value; a key the dict does not
    have is [None]. *)
Module Stream.
Record t := mk {
  id : option string;
  type : option string;
  app_name : option string;
  muted : option bool;
  volume : option N
}.

(** [{}] *)
Definition empty : t := mk None None None None None.

(** [bool(d)]: a dict is true when it has a key. *)
Definition truthy (d : t) : bool :=
  match id d, type d, app_name d, muted d, volume d with
  | None, None, None, None, None => false
  | _, _, _, _, _ => true
  end.

Definition set_app_name (v : string) (d : t) : t :=
  mk (id d) (type d) (Some v) (muted d) (volume d).
Definition set_muted (v : bool) (d : t) : t :=
  mk (id d) (type d) (app_name d) (Some v) (volume d).
Definition set_volume (v : N) (d : t) : t :=
  mk (id d) (type d) (app_name d) (muted d) (Some v).
End Stream.

(** One entry of [streams] in the result of [get_status]. *)
Module StreamInfo.
Record t := mk {
  id : option string;
  type : string;
  app_name : string;
  muted : bool;
  volume : option N
}.
End StreamInfo.

(** The result of [get_status]. *)
Module Status.
Record t := mk {
  success : bool;
  found : bool;
  message : string;
  streams : list StreamInfo.t
}.
End Status.

(** One entry of [results] in the result of [set_mute] and [toggle_mute]. *)
Module StreamResult.
Record t := mk {
  id : string;
  type : string;
  app_name : string;
  success : bool;
  action : string
}.
End StreamResult.

(** The result of [set_mute] and [toggle_mute].  The dict returned for an
    empty selection has the keys [success], [message] and
    [streams_affected] only; the other three keys are optional. *)
Module Summary.
Record t := mk {
  success : bool;
  message : string;
  action : option string;
  streams_affected : nat;
  total_streams : option nat;
  results : option (list StreamResult.t)
}.
End Summary.

(** ** The external tool *)

(** Errors of the operating system when a process is started. *)
Inductive os_error := FileNotFoundError | PermissionError.

(** How one run of the external tool ends: it exits with a return code and
    its standard output as text; or it exits and what it wrote (on its
    standard output or standard error) cannot be decoded as text; or it
    could not be started. *)
Inductive process :=
| Exited (returncode : Z) (stdout : string)
| Undecodable (returncode : Z)
| NotStarted (e : os_error).

(** The exceptions of the program: the three that
    [subprocess.run(..., capture_output=True, text=True, check=True)]
    raises, and the [ValueError] of [int]. *)
Inductive exn :=
| CalledProcessError (returncode : Z)
| OSError (e : os_error)
| UnicodeDecodeError
| ValueError.

Definition exited_zero (p : process) : bool :=
  match p with
  | Exited rc _ => Z.eqb rc 0
  | Undecodable _ => false
  | NotStarted _ => false
  end.

(** The invocation failed: a return code other than zero, an output that
    is no text, or no process. *)
Definition failed (p : process) : bool := negb (exited_zero p).

(** ** The state and exception monad of the controller *)

Inductive outcome (A : Type) :=
| Val (a : A)
| Raise (e : exn).
Arguments Val {A} a.
Arguments Raise {A} e.

Section Controller.

Context {World : Type}.

(** The external tool: a command line and the world give the way the
    process ends and the world after it. *)
Variable pactl : list string -> World -> process * World.

(** The state: the world, and the calls of [subprocess.run] made so far,
    oldest first. *)
Record state := mkState {
  world : World;
  trace : list (list string * process)
}.

Definition M (A : Type) : Type := state -> outcome A * state.

Definition ret {A} (a : A) : M A := fun st => (Val a, st).

Definition bind {A B} (m : M A) (k : A -> M B) : M B :=
  fun st =>
    match m st with
    | (Val a, st') => k a st'
    | (Raise e, st') => (Raise e, st')
    end.

(** [try: m  except CalledProcessError: h] *)
Definition try_except_CalledProcessError {A} (m : M A) (h : Z -> M A) : M A :=
  fun st =>
    match m st with
    | (Raise (CalledProcessError rc), st') => h rc st'
    | r => r
    end.

Notation "x <- m ;; k" := (bind m (fun x => k))
  (at level 61, m at next level, right associativity).

(** [raise e] and, more generally, the outcome of a computation without
    effect. *)
Definition lift {A} (o : outcome A) : M A := fun st => (o, st).

(** [subprocess.run(command, capture_output=True, text=True, check=True).stdout]:
    the output is decoded before the return code is looked at. *)
Definition subprocess_run (command : list string) : M string :=
  fun st =>
    let (p, w) := pactl command (world st) in
    let st' := mkState w (trace st ++ [(command, p)]) in
    match p with
    | Exited rc out =>
        if Z.eqb rc 0 then (Val out, st')
        else (Raise (CalledProcessError rc), st')
    | Undecodable rc => (Raise UnicodeDecodeError, st')
    | NotStarted e => (Raise (OSError e), st')
    end.

(** [_run_command]: the standard output, or [None] after
    [CalledProcessError] (the message printed there is not modelled). *)
Definition _run_command (command : list string) : M (option string) :=
  try_except_CalledProcessError
    (out <- subprocess_run command ;; ret (Some out))
    (fun _ => ret None).

(** *** The parser *)

(** One turn of the loop of [_get_sink_inputs] over the lines; it raises
    where [int] does. *)
Definition sink_step (acc : list Stream.t * Stream.t) (line : string)
  : outcome (list Stream.t * Stream.t) :=
  let (sinks, current_sink) := acc in
  let line := strip line in
  if startswith "Sink Input #" line then
    let sinks := if Stream.truthy current_sink
                 then sinks ++ [current_sink] else sinks in
    let sink_id := search_hash_digits line in
    Val (sinks,
         Stream.mk (Some (match sink_id with
                          | Some g => g
                          | None => EmptyString
                          end))
                   (Some "sink-input") None None None)
  else if contains "application.name" line then
    match search_app_name line with
    | Some g => Val (sinks, Stream.set_app_name g current_sink)
    | None => Val (sinks, current_sink)
    end
  else if startswith "Mute:" line then
    Val (sinks, Stream.set_muted (contains "yes" (lower line)) current_sink)
  else if startswith "Volume:" line then
    match search_digits_percent line with
    | Some g =>
        match int g with
        | Some v => Val (sinks, Stream.set_volume v current_sink)
        | None => Raise ValueError
        end
    | None => Val (sinks, current_sink)
    end
  else Val (sinks, current_sink).

(** The loop of [_get_sink_inputs] over the lines: it ends at the first
    turn that raises. *)
Fixpoint sink_loop (lines : list string) (acc : list Stream.t * Stream.t)
  : outcome (list Stream.t * Stream.t) :=
  match lines with
  | [] => Val acc
  | line :: rest =>
      match sink_step acc line with
      | Val acc' => sink_loop rest acc'
      | Raise e => Raise e
      end
  end.

(** [_get_sink_inputs] after the call of the tool. *)
Definition parse_sink_inputs (output : option string)
  : outcome (list Stream.t) :=
  match output with
  | None => Val []
  | Some output =>
      if negb (PyStr.truthy output) then Val []
      else
        match sink_loop (split_lines output) ([], Stream.empty) with
        | Val (sinks, current_sink) =>
            Val (if Stream.truthy current_sink
                 then sinks ++ [current_sink] else sinks)
        | Raise e => Raise e
        end
  end.

Definition _get_sink_inputs : M (list Stream.t) :=
  output <- _run_command ["pactl"; "list"; "sink-inputs"] ;;
  lift (parse_sink_inputs output).

(** One turn of the loop of [_get_source_outputs] over the lines. *)
Definition source_step (acc : list Stream.t * Stream.t) (line : string)
  : list Stream.t * Stream.t :=
  let (sources, current_source) := acc in
  let line := strip line in
  if startswith "Source Output #" line then
    let sources := if Stream.truthy current_source
                   then sources ++ [current_source] else sources in
    let source_id := search_hash_digits line in
    (sources,
     Stream.mk (Some (match source_id with
                      | Some g => g
                      | None => EmptyString
                      end))
               (Some "source-output") None None None)
  else if contains "application.name" line then
    match search_app_name line with
    | Some g => (sources, Stream.set_app_name g current_source)
    | None => (sources, current_source)
    end
  else if startswith "Mute:" line then
    (sources, Stream.set_muted (contains "yes" (lower line)) current_source)
  else (sources, current_source).

(** [_get_source_outputs] after the call of the tool. *)
Definition parse_source_outputs (output : option string) : list Stream.t :=
  match output with
  | None => []
  | Some output =>
      if negb (PyStr.truthy output) then []
      else
        let (sources, current_source) :=
          fold_left source_step (split_lines output) ([], Stream.empty) in
        if Stream.truthy current_source
        then sources ++ [current_source] else sources
  end.

Definition _get_source_outputs : M (list Stream.t) :=
  output <- _run_command ["pactl"; "list"; "source-outputs"] ;;
  ret (parse_source_outputs output).

(** *** Selection *)

(** [self.discord_patterns] *)
Definition discord_patterns : list string :=
  ["WEBRTC VoiceEngine"; "Discord"; "discord"; "playStream"; "recStream"].

(** [d.get(key, default)] *)
Definition get {A} (o : option A) (default : A) : A :=
  match o with Some v => v | None => default end.

(** The inner loop of [_find_discord_streams]: whether the loop over the
    patterns reaches its [break]. *)
Fixpoint any_pattern_in (patterns : list string) (app_name : string) : bool :=
  match patterns with
  | [] => false
  | pattern :: rest =>
      if contains (lower pattern) app_name then true
      else any_pattern_in rest app_name
  end.

(** The outer loop of [_find_discord_streams]. *)
Fixpoint select_discord (all_streams discord_streams : list Stream.t)
  : list Stream.t :=
  match all_streams with
  | [] => discord_streams
  | stream :: rest =>
      let app_name := lower (get (Stream.app_name stream) EmptyString) in
      select_discord rest
        (if any_pattern_in discord_patterns app_name
         then discord_streams ++ [stream] else discord_streams)
  end.

Definition _find_discord_streams : M (list Stream.t) :=
  sinks <- _get_sink_inputs ;;
  sources <- _get_source_outputs ;;
  ret (select_discord (sinks ++ sources) []).

(** *** Status *)

Definition option_string_eqb (a : option string) (b : string) : bool :=
  match a with Some a => String.eqb a b | None => false end.

(** The dict [stream_info] built for one stream by [get_status]. *)
Definition stream_info (stream : Stream.t) : StreamInfo.t :=
  StreamInfo.mk
    (Stream.id stream)
    (if option_string_eqb (Stream.type stream) "sink-input"
     then "playback" else "recording")
    (get (Stream.app_name stream) "Unknown")
    (get (Stream.muted stream) false)
    (Stream.volume stream).

Definition get_status : M Status.t :=
  discord_streams <- _find_discord_streams ;;
  match discord_streams with
  | [] => ret (Status.mk true false "No Discord streams found" [])
  | _ :: _ =>
      ret (Status.mk true true
             ("Found " ++ str_of_nat (length discord_streams)
              ++ " Discord streams")
             (map stream_info discord_streams))
  end.

(** *** Mute *)

(** The head of the loop body of [toggle_mute] and [set_mute]: [None]
    when the loop body ends in [continue], otherwise the id, the command
    and the description of the stream. *)
Definition mute_command (target_state : string) (stream : Stream.t)
  : option (string * list string * string) :=
  match Stream.id stream, Stream.type stream with
  | Some stream_id, Some stream_type =>
      if negb (PyStr.truthy stream_id) || negb (PyStr.truthy stream_type)
      then None
      else if String.eqb stream_type "sink-input" then
        Some (stream_id,
              ["pactl"; "set-sink-input-mute"; stream_id; target_state],
              "playback")
      else if String.eqb stream_type "source-output" then
        Some (stream_id,
              ["pactl"; "set-source-output-mute"; stream_id; target_state],
              "recording")
      else None
  | _, _ => None
  end.

Definition is_not_None {A} (o : option A) : bool :=
  match o with Some _ => true | None => false end.

(** The loop over the selected streams; it is the same text in
    [toggle_mute] and in [set_mute]. *)
Fixpoint mute_loop (target_state action : string)
    (discord_streams : list Stream.t)
    (results : list StreamResult.t) (success_count : nat)
  : M (list StreamResult.t * nat) :=
  match discord_streams with
  | [] => ret (results, success_count)
  | stream :: rest =>
      let app_name := get (Stream.app_name stream) "Unknown" in
      match mute_command target_state stream with
      | None => mute_loop target_state action rest results success_count
      | Some (stream_id, cmd, stream_desc) =>
          result <- _run_command cmd ;;
          let stream_result :=
            StreamResult.mk stream_id stream_desc app_name
                            (is_not_None result) action in
          let success_count :=
            if is_not_None result then success_count + 1
            else success_count in
          mute_loop target_state action rest
                    (results ++ [stream_result]) success_count
      end
  end.

(** The dict returned after the loop. *)
Definition summary (action : string) (discord_streams : list Stream.t)
    (results : list StreamResult.t) (success_count : nat) : Summary.t :=
  Summary.mk
    (Nat.ltb 0 success_count)
    ("Successfully " ++ action ++ " " ++ str_of_nat success_count ++ "/"
     ++ str_of_nat (length discord_streams) ++ " streams")
    (Some action)
    success_count
    (Some (length discord_streams))
    (Some results).

(** The dict returned when no stream is selected. *)
Definition no_streams : Summary.t :=
  Summary.mk false "No Discord streams found" None 0 None None.

Definition toggle_mute : M Summary.t :=
  discord_streams <- _find_discord_streams ;;
  match discord_streams with
  | [] => ret no_streams
  | first_stream :: _ =>
      let is_currently_muted := get (Stream.muted first_stream) false in
      let target_state := if is_currently_muted then "0" else "1" in
      let action := if is_currently_muted then "unmuted" else "muted" in
      r <- mute_loop target_state action discord_streams [] 0 ;;
      ret (summary action discord_streams (fst r) (snd r))
  end.

Definition set_mute (mute : bool) : M Summary.t :=
  discord_streams <- _find_discord_streams ;;
  match discord_streams with
  | [] => ret no_streams
  | _ :: _ =>
      let target_state := if mute then "1" else "0" in
      let action := if mute then "muted" else "unmuted" in
      r <- mute_loop target_state action discord_streams [] 0 ;;
      ret (summary action discord_streams (fst r) (snd r))
  end.

End Controller.

Arguments state World : clear implicits.
Arguments M World A : clear implicits.

(** ** A scripted tool, for running the controller on examples *)

Module Script.

Fixpoint command_eqb (a b : list string) : bool :=
  match a, b with
  | [], [] => true
  | x :: a', y :: b' => String.eqb x y && command_eqb a' b'
  | _, _ => false
  end.

(** A tool without memory: it answers the two listings with [sinks] and
    [sources] and every other command with [other]. *)
Definition tool (sinks sources : process) (other : list string -> process)
    (command : list string) (w : unit) : process * unit :=
  (if command_eqb command ["pactl"; "list"; "sink-inputs"] then sinks
   else if command_eqb command ["pactl"; "list"; "source-outputs"] then sources
   else other command,
   w).

Definition init : state unit := mkState tt [].

Definition app_line (name : string) : string :=
  "        application.name = " ++ quoted name.

(** Two Discord playback streams, the second one muted, and a player. *)
Definition sinks_text : string :=
  unlines
    [ "Sink Input #42";
      "    Driver: protocol-native.c";
      "    Mute: no";
      "    Volume: front-left: 65536 / 100% / 0.00 dB";
      "    Properties:";
      app_line "WEBRTC VoiceEngine";
      "Sink Input #43";
      "    Mute: yes";
      "    Volume: front-left: 32768 /  50% / -18.06 dB";
      app_line "Discord";
      "Sink Input #50";
      "    Mute: no";
      app_line "Spotify";
      EmptyString ].

(** One Discord recording stream. *)
Definition sources_text : string :=
  unlines
    [ "Source Output #7";
      "    Mute: no";
      app_line "recStream";
      EmptyString ].

(** A listing whose first record has a marker without digits. *)
Definition sinks_no_id_text : string :=
  unlines
    [ "Sink Input #";
      "    Mute: no";
      app_line "Discord";
      "Sink Input #43";
      "    Mute: yes";
      "    Volume: front-left: 32768 /  50% / -18.06 dB";
      app_line "Discord" ].

Definition ok (command : list string) : process := Exited 0 EmptyString.

(** The mute command of stream 43 fails, the others succeed. *)
Definition fail_43 (command : list string) : process :=
  match command with
  | [_; _; i; _] => if String.eqb i "43" then Exited 1 EmptyString
                    else Exited 0 EmptyString
  | _ => Exited 0 EmptyString
  end.

Definition healthy := tool (Exited 0 sinks_text) (Exited 0 sources_text) ok.
Definition flaky := tool (Exited 0 sinks_text) (Exited 0 sources_text) fail_43.
Definition no_id := tool (Exited 0 sinks_no_id_text) (Exited 1 EmptyString) ok.
Definition silent := tool (Exited 0 EmptyString) (Exited 0 EmptyString) ok.
Definition broken := tool (Exited 1 EmptyString) (Exited 1 EmptyString) ok.
Definition missing :=
  tool (NotStarted FileNotFoundError) (NotStarted FileNotFoundError)
       (fun _ => NotStarted FileNotFoundError).

(** A listing without a marker line: attribute lines only. *)
Definition stray_text : string :=
  unlines [ "    Mute: yes"; app_line "Discord" ].

Definition stray := tool (Exited 0 stray_text) (Exited 0 stray_text) ok.

(** The selection made from the initial state, and the state after it. *)
Definition selected (pactl : list string -> unit -> process * unit)
  : list Stream.t :=
  match fst (_find_discord_streams pactl init) with
  | Val l => l
  | Raise _ => []
  end.

Definition after_selection (pactl : list string -> unit -> process * unit)
  : state unit :=
  snd (_find_discord_streams pactl init).

(** The value an operation returns, [d] when it raises. *)
Definition returned {A : Type} (r : outcome A * state unit) (d : A) : A :=
  match fst r with
  | Val a => a
  | Raise _ => d
  end.

(** The records of the three Discord streams of the two listings. *)
Definition stream42 : Stream.t :=
  Stream.mk (Some "42") (Some "sink-input") (Some "WEBRTC VoiceEngine")
            (Some false) (Some 100%N).
Definition stream43 : Stream.t :=
  Stream.mk (Some "43") (Some "sink-input") (Some "Discord")
            (Some true) (Some 50%N).
Definition stream7 : Stream.t :=
  Stream.mk (Some "7") (Some "source-output") (Some "recStream")
            (Some false) None.

(** The first record of the listing [sinks_no_id_text]. *)
Definition stream_no_id : Stream.t :=
  Stream.mk (Some EmptyString) (Some "sink-input") (Some "Discord")
            (Some false) None.

End Script.

(** ** The playback parser without the limit of [int] *)

(** The loop body of [_get_sink_inputs] with [int_of_digits] in the place
    of [int]: what a turn of the loop computes when it does not raise.
    The properties of the records are proved of it and carried to the
    parser by [parse_sink_inputs_cases]. *)
Definition sink_step_total (acc : list Stream.t * Stream.t) (line : string)
  : list Stream.t * Stream.t :=
  let (sinks, current_sink) := acc in
  let line := strip line in
  if startswith "Sink Input #" line then
    let sinks := if Stream.truthy current_sink
                 then sinks ++ [current_sink] else sinks in
    let sink_id := search_hash_digits line in
    (sinks,
     Stream.mk (Some (match sink_id with
                      | Some g => g
                      | None => EmptyString
                      end))
               (Some "sink-input") None None None)
  else if contains "application.name" line then
    match search_app_name line with
    | Some g => (sinks, Stream.set_app_name g current_sink)
    | None => (sinks, current_sink)
    end
  else if startswith "Mute:" line then
    (sinks, Stream.set_muted (contains "yes" (lower line)) current_sink)
  else if startswith "Volume:" line then
    match search_digits_percent line with
    | Some g => (sinks, Stream.set_volume (int_of_digits g) current_sink)
    | None => (sinks, current_sink)
    end
  else (sinks, current_sink).

(** The records of the playback listing when [int] does not raise. *)
Definition parse_sink_inputs_total (output : option string) : list Stream.t :=
  match output with
  | None => []
  | Some output =>
      if negb (PyStr.truthy output) then []
      else
        let (sinks, current_sink) :=
          fold_left sink_step_total (split_lines output) ([], Stream.empty) in
        if Stream.truthy current_sink
        then sinks ++ [current_sink] else sinks
  end.

(** A line on which the playback loop raises: a volume line whose
    percentage has more digits than [int] converts. *)
Definition sink_overlong (line : string) : bool :=
  let l := strip line in
  negb (startswith "Sink Input #" l)
  && negb (contains "application.name" l)
  && negb (startswith "Mute:" l)
  && startswith "Volume:" l
  && match search_digits_percent l with
     | Some g => Nat.ltb max_str_digits (String.length g)
     | None => false
     end.

(** ** Vocabulary of the specification *)

(** A record-start marker line of the playback listing, of the recording
    listing. *)
Definition sink_marker (line : string) : bool :=
  startswith "Sink Input #" (strip line).

Definition source_marker (line : string) : bool :=
  startswith "Source Output #" (strip line).

(** An attribute line: a line that is no marker and stores a key in the
    record under construction. *)
Definition sink_field (line : string) : bool :=
  let l := strip line in
  negb (sink_marker line) &&
  (if contains "application.name" l then is_not_None (search_app_name l)
   else if startswith "Mute:" l then true
   else if startswith "Volume:" l then is_not_None (search_digits_percent l)
   else false).

Definition source_field (line : string) : bool :=
  let l := strip line in
  negb (source_marker line) &&
  (if contains "application.name" l then is_not_None (search_app_name l)
   else startswith "Mute:" l).

(** The number of lines that satisfy [p]. *)
Definition count (p : string -> bool) (lines : list string) : nat :=
  length (filter p lines).

(** Some attribute line comes before the first marker line. *)
Fixpoint field_before_marker (marker field : string -> bool)
    (lines : list string) : bool :=
  match lines with
  | [] => false
  | l :: rest =>
      if marker l then false
      else field l || field_before_marker marker field rest
  end.

(** 1 for a record under construction that will be flushed, 0 for [{}]. *)
Definition pending (d : Stream.t) : nat :=
  if Stream.truthy d then 1 else 0.

(** ** Vocabulary for the mute operations *)

(** The state after one call of [subprocess.run]. *)
Definition called {World : Type}
    (pactl : list string -> World -> process * World)
    (command : list string) (st : state World) : state World :=
  mkState (snd (pactl command (world st)))
          (trace st ++ [(command, fst (pactl command (world st)))]).

(** The tool can always be started: every invocation exits, with some
    return code and with text as its output. *)
Definition starts {World : Type}
    (pactl : list string -> World -> process * World) : Prop :=
  forall command w, exists rc out, fst (pactl command w) = Exited rc out.

(** A stream that carries a non-empty id and one of the two stream types. *)
Definition has_id_and_type (s : Stream.t) : bool :=
  match Stream.id s, Stream.type s with
  | Some i, Some t =>
      PyStr.truthy i
      && (String.eqb t "sink-input" || String.eqb t "source-output")
  | _, _ => false
  end.

(** What the specification says of one stream [s], the invocation [e]
    made for it and the result [r] recorded for it. *)
Definition attempt (target_state action : string)
    (s : Stream.t) (e : list string * process) (r : StreamResult.t) : Prop :=
  exists i,
    Stream.id s = Some i
    /\ ((Stream.type s = Some "sink-input"
         /\ fst e = ["pactl"; "set-sink-input-mute"; i; target_state]
         /\ StreamResult.type r = "playback")
        \/ (Stream.type s = Some "source-output"
            /\ fst e = ["pactl"; "set-source-output-mute"; i; target_state]
            /\ StreamResult.type r = "recording"))
    /\ StreamResult.id r = i
    /\ StreamResult.app_name r = get (Stream.app_name s) "Unknown"
    /\ StreamResult.success r = exited_zero (snd e)
    /\ StreamResult.action r = action.

Inductive Forall3 {A B C : Type} (R : A -> B -> C -> Prop)
  : list A -> list B -> list C -> Prop :=
| Forall3_nil : Forall3 R [] [] []
| Forall3_cons : forall a b c la lb lc,
    R a b c -> Forall3 R la lb lc ->
    Forall3 R (a :: la) (b :: lb) (c :: lc).

(** The number of results whose [success] is true. *)
Definition succeeded (rs : list StreamResult.t) : nat :=
  length (filter StreamResult.success rs).

(** A per-stream mute-set command with the state argument [target_state]. *)
Definition mute_set_with (target_state : string) (command : list string) : Prop :=
  exists variant i,
    (variant = "set-sink-input-mute" \/ variant = "set-source-output-mute")
    /\ command = ["pactl"; variant; i; target_state].

(** The three requests served through [toggle_mute] and [set_mute]. *)
Inductive operation :=
| SetMute (mute : bool)
| ToggleMute.

Definition perform {World : Type}
    (pactl : list string -> World -> process * World)
    (op : operation) : M World Summary.t :=
  match op with
  | SetMute mute => set_mute pactl mute
  | ToggleMute => toggle_mute pactl
  end.

(** The target state of an operation on a selection: the argument of
    [set_mute], or the negation of the first stream's observed flag. *)
Definition target (op : operation) (streams : list Stream.t) : bool :=
  match op with
  | SetMute mute => mute
  | ToggleMute =>
      match streams with
      | first_stream :: _ => negb (get (Stream.muted first_stream) false)
      | [] => true
      end
  end.

(** The state argument of the mute-set command, and the action label. *)
Definition state_argument (mute : bool) : string := if mute then "1" else "0".
Definition label (mute : bool) : string := if mute then "muted" else "unmuted".

(** The members of the pattern set of the specification, and the selection
    it describes. *)
Definition spec_patterns : list string :=
  ["webrtc voiceengine"; "discord"; "playstream"; "recstream"].

Definition spec_selected (s : Stream.t) : bool :=
  match Stream.app_name s with
  | None => false
  | Some name => existsb (fun p => contains p (lower name)) spec_patterns
  end.

(** What the specification says of one selected stream [s] and its display
    record [i] in the result of [get_status]. *)
Definition displays (s : Stream.t) (i : StreamInfo.t) : Prop :=
  (Stream.type s = Some "sink-input" -> StreamInfo.type i = "playback")
  /\ (Stream.type s = Some "source-output" -> StreamInfo.type i = "recording")
  /\ (Stream.app_name s = None -> StreamInfo.app_name i = "Unknown")
  /\ (forall n, Stream.app_name s = Some n -> StreamInfo.app_name i = n)
  /\ StreamInfo.id i = Stream.id s
  /\ StreamInfo.muted i = get (Stream.muted s) false
  /\ StreamInfo.volume i = Stream.volume s.

(** ** The web server of [main.py] *)

(** [discord_controller = DiscordAudioController()]: the methods the
    routes call. *)
Module discord_controller.
Definition get_status {World : Type}
    (pactl : list string -> World -> process * World) : M World Status.t :=
  get_status pactl.
Definition toggle_mute {World : Type}
    (pactl : list string -> World -> process * World) : M World Summary.t :=
  toggle_mute pactl.
Definition set_mute {World : Type}
    (pactl : list string -> World -> process * World) (mute : bool)
  : M World Summary.t :=
  set_mute pactl mute.
End discord_controller.

(** What [jsonify] is given: the dict of [get_status], the dict of
    [toggle_mute] or [set_mute], or the dict of an [except] branch. *)
Inductive json :=
| StatusJson (r : Status.t)
| SummaryJson (s : Summary.t)
| ErrorJson (success : bool) (message : string).

(** A response: the body and the status code (200 when the route gives
    none). *)
Record response := mkResponse {
  body : json;
  status_code : nat
}.

Module Main.
Section Routes.

Context {World : Type}.
Variable pactl : list string -> World -> process * World.

(** [str(e)], the text of an exception: given by the Python runtime. *)
Variable str : exn -> string.

(** The route [/status]. *)
Definition get_status (st : state World) : response * state World :=
  match discord_controller.get_status pactl st with
  | (Val result, st') => (mkResponse (StatusJson result) 200, st')
  | (Raise e, st') =>
      (mkResponse (ErrorJson false ("Error getting status: " ++ str e)) 500,
       st')
  end.

(** The route [/toggle]. *)
Definition toggle_mute (st : state World) : response * state World :=
  match discord_controller.toggle_mute pactl st with
  | (Val result, st') =>
      let status_code := if Summary.success result then 200 else 404 in
      (mkResponse (SummaryJson result) status_code, st')
  | (Raise e, st') =>
      (mkResponse (ErrorJson false ("Error toggling mute: " ++ str e)) 500,
       st')
  end.

(** The route [/mute]. *)
Definition mute_discord (st : state World) : response * state World :=
  match discord_controller.set_mute pactl true st with
  | (Val result, st') =>
      let status_code := if Summary.success result then 200 else 404 in
      (mkResponse (SummaryJson result) status_code, st')
  | (Raise e, st') =>
      (mkResponse (ErrorJson false ("Error muting Discord: " ++ str e)) 500,
       st')
  end.

(** The route [/unmute]. *)
Definition unmute_discord (st : state World) : response * state World :=
  match discord_controller.set_mute pactl false st with
  | (Val result, st') =>
      let status_code := if Summary.success result then 200 else 404 in
      (mkResponse (SummaryJson result) status_code, st')
  | (Raise e, st') =>
      (mkResponse (ErrorJson false ("Error unmuting Discord: " ++ str e)) 500,
       st')
  end.

End Routes.
End Main.

(** ** Vocabulary for the further properties *)

(** The three routes that change the mute state, and the operation each
    one performs. *)
Inductive mute_route := RouteToggle | RouteMute | RouteUnmute.

Definition route_operation (r : mute_route) : operation :=
  match r with
  | RouteToggle => ToggleMute
  | RouteMute => SetMute true
  | RouteUnmute => SetMute false
  end.

Definition serve {World : Type}
    (pactl : list string -> World -> process * World) (str : exn -> string)
    (r : mute_route) : state World -> response * state World :=
  match r with
  | RouteToggle => Main.toggle_mute pactl str
  | RouteMute => Main.mute_discord pactl str
  | RouteUnmute => Main.unmute_discord pactl str
  end.

(** The text that begins the message of the [except] branch of a route. *)
Definition route_error (r : mute_route) : string :=
  match r with
  | RouteToggle => "Error toggling mute: "
  | RouteMute => "Error muting Discord: "
  | RouteUnmute => "Error unmuting Discord: "
  end.

(** A string of characters of the class [\d]. *)
Fixpoint all_digits (s : string) : bool :=
  match s with
  | EmptyString => true
  | String c r => isdigit c && all_digits r
  end.

(** No character of [s] is [c]. *)
Fixpoint without (c : ascii) (s : string) : bool :=
  match s with
  | EmptyString => true
  | String a r => negb (Ascii.eqb a c) && without c r
  end.

(** The invocation exited, with whatever return code, and its output is
    text. *)
Definition exited (e : list string * process) : Prop :=
  exists rc out, snd e = Exited rc out.

Definition list_sink_inputs : list string := ["pactl"; "list"; "sink-inputs"].
Definition list_source_outputs : list string :=
  ["pactl"; "list"; "source-outputs"].

(** A per-stream mute-set command whose id is a non-empty string of digits
    and whose state argument is 0 or 1. *)
Definition clean_mute_command (command : list string) : Prop :=
  exists variant i argument,
    command = ["pactl"; variant; i; argument]
    /\ (variant = "set-sink-input-mute" \/ variant = "set-source-output-mute")
    /\ i <> EmptyString /\ all_digits i = true
    /\ (argument = "0" \/ argument = "1").

(** A record begun by a marker line of the listing of type [ty]: it has that
    type and an id made of digits (none when the marker had none). *)
Definition begun (ty : string) (r : Stream.t) : Prop :=
  Stream.type r = Some ty
  /\ exists d, Stream.id r = Some d /\ all_digits d = true.

(** A record made of attribute lines that came before any marker. *)
Definition headless (r : Stream.t) : Prop :=
  Stream.id r = None /\ Stream.type r = None.

(** What the invocations [es] of a computation look like when it raises
    [e]: an [OSError] comes from a last invocation that could not be
    started, a [UnicodeDecodeError] from a last invocation whose output
    could not be decoded, and before it every invocation exited; a
    [ValueError] comes from [int], after invocations that all exited;
    [CalledProcessError] is never raised. *)
Definition raised_by (e : exn) (es : list (list string * process)) : Prop :=
  match e with
  | CalledProcessError _ => False
  | OSError oe =>
      exists es' command,
        es = es' ++ [(command, NotStarted oe)] /\ Forall exited es'
  | UnicodeDecodeError =>
      exists es' command rc,
        es = es' ++ [(command, Undecodable rc)] /\ Forall exited es'
  | ValueError => Forall exited es
  end.

(** The way a computation of the controller uses the tool: when it returns,
    every invocation it made exited; when it raises, the invocations it
    made are those of [raised_by]. *)
Definition disciplined {World A : Type} (m : M World A) : Prop :=
  forall st,
    exists es,
      trace (snd (m st)) = trace st ++ es
      /\ match fst (m st) with
         | Val _ => Forall exited es
         | Raise e => raised_by e es
         end.

(** The playback listing asked for in the state [st] exits with return
    code zero and has a volume line on which [int] raises. *)
Definition overlong_volume {World : Type}
    (pactl : list string -> World -> process * World) (st : state World)
  : Prop :=
  exists out,
    fst (pactl list_sink_inputs (world st)) = Exited 0 out
    /\ existsb sink_overlong (split_lines out) = true.

(** A line the playback parser, the recording parser, ignores: no marker
    line and no attribute line. *)
Definition sink_ignored (line : string) : bool :=
  negb (sink_marker line) && negb (sink_field line).

Definition source_ignored (line : string) : bool :=
  negb (source_marker line) && negb (source_field line).

Definition TAB : ascii := "009"%char.

(** The line of the mute flag and the line of the application name, as
    pactl prints them. *)
Definition mute_line (muted : bool) : string :=
  String TAB ("Mute: " ++ (if muted then "yes" else "no")).

Definition name_line (name : string) : string :=
  String TAB (String TAB ("application.name = " ++ quoted name)).

(** The text pactl prints for one playback stream, as far as the parser
    reads it: the marker with the id, the mute flag, the volume of the
    first channel (raw value and percentage) and the application name,
    with lines the parser ignores after each of them. *)
Module PlaybackBlock.
Record t := mk {
  id : string;
  muted : bool;
  raw : string;
  percent : string;
  name : string;
  after_marker : list string;
  after_mute : list string;
  after_volume : list string;
  after_name : list string
}.

Definition lines (b : t) : list string :=
  [("Sink Input #" ++ id b)%string] ++ after_marker b
  ++ [mute_line (muted b)] ++ after_mute b
  ++ [String TAB ("Volume: front-left: " ++ raw b ++ " / " ++ percent b
                  ++ "% / 0.00 dB")] ++ after_volume b
  ++ [name_line (name b)] ++ after_name b.

Definition record (b : t) : Stream.t :=
  Stream.mk (Some (id b)) (Some "sink-input") (Some (name b))
            (Some (muted b)) (Some (int_of_digits (percent b))).

Definition others (b : t) : list string :=
  after_marker b ++ after_mute b ++ after_volume b ++ after_name b.

(** The id and the two numbers are digits, the percentage has no more
    digits than [int] converts, the name has no double quote, no line has
    a line feed, and the other lines are ignored. *)
Definition ok (b : t) : bool :=
  PyStr.truthy (id b) && all_digits (id b) && all_digits (raw b)
  && PyStr.truthy (percent b) && all_digits (percent b)
  && Nat.leb (String.length (percent b)) max_str_digits
  && without dquote (name b) && without LF (name b)
  && forallb sink_ignored (others b) && forallb (without LF) (others b).
End PlaybackBlock.

(** The same for one recording stream. *)
Module RecordingBlock.
Record t := mk {
  id : string;
  muted : bool;
  name : string;
  after_marker : list string;
  after_mute : list string;
  after_name : list string
}.

Definition lines (b : t) : list string :=
  [("Source Output #" ++ id b)%string] ++ after_marker b
  ++ [mute_line (muted b)] ++ after_mute b
  ++ [name_line (name b)] ++ after_name b.

Definition record (b : t) : Stream.t :=
  Stream.mk (Some (id b)) (Some "source-output") (Some (name b))
            (Some (muted b)) None.

Definition others (b : t) : list string :=
  after_marker b ++ after_mute b ++ after_name b.

Definition ok (b : t) : bool :=
  PyStr.truthy (id b) && all_digits (id b)
  && without dquote (name b) && without LF (name b)
  && forallb source_ignored (others b) && forallb (without LF) (others b).
End RecordingBlock.

(** ** A printed listing and a text of exceptions, for examples *)

Module Sample.

(** The text [str(e)] gives for the exceptions of the model. *)
Definition str (e : exn) : string :=
  match e with
  | CalledProcessError rc => "Command returned non-zero exit status"
  | OSError FileNotFoundError => "[Errno 2] No such file or directory: 'pactl'"
  | OSError PermissionError => "[Errno 13] Permission denied: 'pactl'"
  | UnicodeDecodeError => "'utf-8' codec can't decode byte 0xff"
  | ValueError => "Exceeds the limit (4300 digits) for integer string conversion"
  end.

Definition block42 : PlaybackBlock.t :=
  PlaybackBlock.mk "42" false "65536" "100" "WEBRTC VoiceEngine"
    [ "        Driver: protocol-native.c"; "        Corked: no" ]
    []
    [ "                balance 0.00"; "        Properties:" ]
    [ ("                application.process.binary = "
       ++ quoted "Discord")%string;
      EmptyString ].

Definition block43 : PlaybackBlock.t :=
  PlaybackBlock.mk "43" true "32768" "50" "Discord"
    [ "        Driver: protocol-native.c" ] [] [ "        Properties:" ]
    [ EmptyString ].

Definition block7 : RecordingBlock.t :=
  RecordingBlock.mk "7" false "recStream"
    [ "        Driver: protocol-native.c" ] [ "        Properties:" ]
    [ EmptyString ].

(** A percentage of [n] digits. *)
Fixpoint ones (n : nat) : string :=
  match n with
  | O => EmptyString
  | S n' => String "1" (ones n')
  end.

(** A playback listing whose volume line has a percentage of one digit
    more than [int] converts. *)
Definition overlong_text : string :=
  unlines
    [ "Sink Input #42";
      ("        Volume: front-left: 65536 / " ++ ones (S max_str_digits)
       ++ "% / 0.00 dB")%string;
      Script.app_line "Discord" ].

Definition overlong : list string -> unit -> process * unit :=
  Script.tool (Exited 0 overlong_text) (Exited 0 Script.sources_text)
              Script.ok.

(** A tool that exits with code 0 and bytes that are no text. *)
Definition garbled : list string -> unit -> process * unit :=
  Script.tool (Undecodable 0) (Undecodable 0) Script.ok.

Definition playback : list PlaybackBlock.t := [block42; block43].
Definition recording : list RecordingBlock.t := [block7].

Definition pactl : list string -> unit -> process * unit :=
  Script.tool
    (Exited 0 (unlines (flat_map PlaybackBlock.lines playback)))
    (Exited 0 (unlines (flat_map RecordingBlock.lines recording)))
    Script.ok.

End Sample.

(** ** The functions on examples *)

Example split_lines_keeps_last :
  split_lines (unlines ["a"; "  b "; EmptyString]) = ["a"; "  b "; EmptyString].
Proof. reflexivity. Qed.

Example strip_both_ends :
  strip (String "009" ("  Mute: yes " ++ String "013" EmptyString)) = "Mute: yes".
Proof. reflexivity. Qed.

Example hash_digits_leftmost :
  search_hash_digits "Sink Input #x #12a" = Some "12"
  /\ search_hash_digits "Sink Input #" = None.
Proof. split; reflexivity. Qed.

Example app_name_needs_closing_quote :
  search_app_name ("application.name = " ++ quoted "Disc ord" ++ " zz")
  = Some "Disc ord"
  /\ search_app_name ("application.name = " ++ String dquote "Discord") = None.
Proof. split; reflexivity. Qed.

Example volume_first_percentage :
  search_digits_percent "Volume: front-left: 65536 / 100% / 0.00 dB"
  = Some "100"
  /\ int_of_digits "100" = 100%N.
Proof. split; reflexivity. Qed.

Example lower_latin1 :
  lower "WEBRTC VoiceEngine" = "webrtc voiceengine"
  /\ lower (String "201" EmptyString) = String "233" EmptyString
  /\ lower (String "215" EmptyString) = String "215" EmptyString.
Proof. repeat split; reflexivity. Qed.

Example parse_sinks_text :
  parse_sink_inputs_total (Some Script.sinks_text)
  = [ Script.stream42; Script.stream43;
      Stream.mk (Some "50") (Some "sink-input") (Some "Spotify")
                (Some false) None ].
Proof. vm_compute. reflexivity. Qed.

Example parse_sinks_text_returns :
  parse_sink_inputs (Some Script.sinks_text)
  = Val (parse_sink_inputs_total (Some Script.sinks_text)).
Proof. vm_compute. reflexivity. Qed.

Example int_limit :
  int (Sample.ones 4300) = Some (int_of_digits (Sample.ones 4300))
  /\ int (Sample.ones 4301) = None.
Proof. split; vm_compute; reflexivity. Qed.

Example parse_overlong_text_raises :
  parse_sink_inputs (Some Sample.overlong_text) = Raise ValueError.
Proof. vm_compute. reflexivity. Qed.

Example message_of_a_run :
  Summary.message
    (Script.returned (set_mute Script.flaky true Script.init) no_streams)
  = "Successfully muted 2/3 streams".
Proof. vm_compute. reflexivity. Qed.

(** ** The parser: counting records *)

Section FlushCount.

Variable step : list Stream.t * Stream.t -> string -> list Stream.t * Stream.t.
Variables marker field : string -> bool.

Hypothesis step_marker : forall acc cur line,
  marker line = true ->
  exists cur',
    step (acc, cur) line
    = (if Stream.truthy cur then acc ++ [cur] else acc, cur')
    /\ Stream.truthy cur' = true.

Hypothesis step_other : forall acc cur line,
  marker line = false ->
  exists cur',
    step (acc, cur) line = (acc, cur')
    /\ Stream.truthy cur' = Stream.truthy cur || field line.

Lemma fold_flush_count : forall lines acc cur,
  let r := fold_left step lines (acc, cur) in
  length (fst r) + pending (snd r)
  = length acc + pending cur + count marker lines
    + (if Stream.truthy cur then 0
       else if field_before_marker marker field lines then 1 else 0).
Proof.
  induction lines as [|l rest IH]; intros acc cur; cbn zeta.
  - cbn. destruct (Stream.truthy cur); lia.
  - cbn [fold_left field_before_marker]. unfold count. cbn [filter].
    destruct (marker l) eqn:Hm.
    + destruct (step_marker acc cur l Hm) as (cur' & -> & Ht).
      specialize (IH (if Stream.truthy cur then acc ++ [cur] else acc) cur').
      cbn zeta in IH. rewrite IH. rewrite Ht. unfold pending at 1.
      rewrite Ht. unfold pending, count.
      destruct (Stream.truthy cur); cbn [length];
        rewrite ?length_app; cbn [length]; lia.
    + destruct (step_other acc cur l Hm) as (cur' & -> & Ht).
      specialize (IH acc cur'). cbn zeta in IH. rewrite IH.
      unfold pending, count. rewrite Ht.
      destruct (Stream.truthy cur), (field l); cbn [orb]; lia.
Qed.

(** The flush at the end of the input. *)
Lemma flush_count : forall lines,
  let r := fold_left step lines ([], Stream.empty) in
  length (if Stream.truthy (snd r) then fst r ++ [snd r] else fst r)
  = count marker lines
    + (if field_before_marker marker field lines then 1 else 0).
Proof.
  intros lines r.
  pose proof (fold_flush_count lines [] Stream.empty) as H.
  cbn zeta in H. fold r in H. unfold pending in H.
  change (Stream.truthy Stream.empty) with false in H. cbn [length] in H.
  destruct (Stream.truthy (snd r)); rewrite ?length_app; cbn [length]; lia.
Qed.

End FlushCount.

Lemma truthy_set_app_name : forall v d,
  Stream.truthy (Stream.set_app_name v d) = true.
Proof. intros v [[?|] [?|] ? ? ?]; reflexivity. Qed.

Lemma truthy_set_muted : forall v d,
  Stream.truthy (Stream.set_muted v d) = true.
Proof. intros v [[?|] [?|] [?|] ? ?]; reflexivity. Qed.

Lemma truthy_set_volume : forall v d,
  Stream.truthy (Stream.set_volume v d) = true.
Proof. intros v [[?|] [?|] [?|] [?|] ?]; reflexivity. Qed.

Lemma sink_step_marker : forall acc cur line,
  sink_marker line = true ->
  exists cur',
    sink_step_total (acc, cur) line
    = (if Stream.truthy cur then acc ++ [cur] else acc, cur')
    /\ Stream.truthy cur' = true.
Proof.
  intros acc cur line H. unfold sink_marker in H.
  unfold sink_step_total. cbv zeta. rewrite H.
  eexists; split; reflexivity.
Qed.

Lemma sink_step_other : forall acc cur line,
  sink_marker line = false ->
  exists cur',
    sink_step_total (acc, cur) line = (acc, cur')
    /\ Stream.truthy cur' = Stream.truthy cur || sink_field line.
Proof.
  intros acc cur line H. unfold sink_field. rewrite H.
  unfold sink_marker in H. unfold sink_step_total. cbv zeta. rewrite H.
  cbn [negb andb].
  destruct (contains "application.name" (strip line)).
  - destruct (search_app_name (strip line)); eexists; split;
      try reflexivity; cbn [is_not_None];
      rewrite ?truthy_set_app_name, ?orb_true_r, ?orb_false_r; reflexivity.
  - destruct (startswith "Mute:" (strip line)).
    + eexists; split; [reflexivity|].
      now rewrite truthy_set_muted, orb_true_r.
    + destruct (startswith "Volume:" (strip line)).
      * destruct (search_digits_percent (strip line)); eexists; split;
          try reflexivity; cbn [is_not_None];
          rewrite ?truthy_set_volume, ?orb_true_r, ?orb_false_r; reflexivity.
      * eexists; split; [reflexivity|]. now rewrite orb_false_r.
Qed.

Lemma source_step_marker : forall acc cur line,
  source_marker line = true ->
  exists cur',
    source_step (acc, cur) line
    = (if Stream.truthy cur then acc ++ [cur] else acc, cur')
    /\ Stream.truthy cur' = true.
Proof.
  intros acc cur line H. unfold source_marker in H.
  unfold source_step. cbv zeta. rewrite H.
  eexists; split; reflexivity.
Qed.

Lemma source_step_other : forall acc cur line,
  source_marker line = false ->
  exists cur',
    source_step (acc, cur) line = (acc, cur')
    /\ Stream.truthy cur' = Stream.truthy cur || source_field line.
Proof.
  intros acc cur line H. unfold source_field. rewrite H.
  unfold source_marker in H. unfold source_step. cbv zeta. rewrite H.
  cbn [negb andb].
  destruct (contains "application.name" (strip line)).
  - destruct (search_app_name (strip line)); eexists; split;
      try reflexivity; cbn [is_not_None];
      rewrite ?truthy_set_app_name, ?orb_true_r, ?orb_false_r; reflexivity.
  - destruct (startswith "Mute:" (strip line)).
    + eexists; split; [reflexivity|].
      now rewrite truthy_set_muted, orb_true_r.
    + eexists; split; [reflexivity|]. now rewrite orb_false_r.
Qed.

(** The number of records of a listing: one per marker line, and one more
    when an attribute line comes before the first marker. *)
Lemma parse_sink_inputs_length : forall output,
  length (parse_sink_inputs_total (Some output))
  = count sink_marker (split_lines output)
    + (if field_before_marker sink_marker sink_field (split_lines output)
       then 1 else 0).
Proof.
  intros output. unfold parse_sink_inputs_total.
  destruct output as [|c r]; [reflexivity|].
  cbn [PyStr.truthy negb].
  pose proof (flush_count sink_step_total sink_marker sink_field
                sink_step_marker sink_step_other
                (split_lines (String c r))) as H.
  cbn zeta in H.
  destruct (fold_left sink_step_total (split_lines (String c r)) ([], Stream.empty))
    as [sinks cur].
  exact H.
Qed.

Lemma parse_source_outputs_length : forall output,
  length (parse_source_outputs (Some output))
  = count source_marker (split_lines output)
    + (if field_before_marker source_marker source_field (split_lines output)
       then 1 else 0).
Proof.
  intros output. unfold parse_source_outputs.
  destruct output as [|c r]; [reflexivity|].
  cbn [PyStr.truthy negb].
  pose proof (flush_count source_step source_marker source_field
                source_step_marker source_step_other
                (split_lines (String c r))) as H.
  cbn zeta in H.
  destruct (fold_left source_step (split_lines (String c r)) ([], Stream.empty))
    as [sources cur].
  exact H.
Qed.

(** ** The parser and the limit of [int] *)

(** A turn of the playback loop raises [ValueError] on a volume line with
    an over-long percentage, and is [sink_step_total] on the other lines. *)
Lemma sink_step_cases : forall acc line,
  sink_step acc line
  = if sink_overlong line then Raise ValueError
    else Val (sink_step_total acc line).
Proof.
  intros [sinks cur] line. unfold sink_step, sink_step_total, sink_overlong.
  cbv zeta.
  destruct (startswith "Sink Input #" (strip line)); [reflexivity|].
  destruct (contains "application.name" (strip line)).
  { destruct (search_app_name (strip line)); reflexivity. }
  destruct (startswith "Mute:" (strip line)); [reflexivity|].
  destruct (startswith "Volume:" (strip line)); [|reflexivity].
  destruct (search_digits_percent (strip line)) as [g|]; [|reflexivity].
  unfold int. cbn [negb andb].
  destruct (Nat.ltb max_str_digits (String.length g)); reflexivity.
Qed.

Lemma sink_loop_cases : forall lines acc,
  sink_loop lines acc
  = if existsb sink_overlong lines then Raise ValueError
    else Val (fold_left sink_step_total lines acc).
Proof.
  induction lines as [|l rest IH]; intros acc; cbn [sink_loop existsb fold_left];
    [reflexivity|].
  rewrite sink_step_cases. destruct (sink_overlong l); [reflexivity|].
  cbn [orb]. apply IH.
Qed.

(** The playback parser raises [ValueError] exactly when a line has an
    over-long percentage; otherwise it returns the records of
    [parse_sink_inputs_total]. *)
Lemma parse_sink_inputs_cases : forall output,
  parse_sink_inputs (Some output)
  = if existsb sink_overlong (split_lines output) then Raise ValueError
    else Val (parse_sink_inputs_total (Some output)).
Proof.
  intros output. unfold parse_sink_inputs, parse_sink_inputs_total.
  destruct output as [|c r]; [reflexivity|]. cbn [PyStr.truthy negb].
  rewrite sink_loop_cases.
  destruct (existsb sink_overlong (split_lines (String c r))); [reflexivity|].
  destruct (fold_left sink_step_total (split_lines (String c r))
              ([], Stream.empty)); reflexivity.
Qed.

(** The playback parser raises nothing but [ValueError]. *)
Lemma parse_sink_inputs_raises : forall output e,
  parse_sink_inputs output = Raise e -> e = ValueError.
Proof.
  intros [output|] e H; [|discriminate].
  rewrite parse_sink_inputs_cases in H.
  destruct (existsb sink_overlong (split_lines output)); congruence.
Qed.

Lemma parse_sink_inputs_val : forall output l,
  parse_sink_inputs output = Val l ->
  l = parse_sink_inputs_total output.
Proof.
  intros [output|] l H; [|injection H as <-; reflexivity].
  rewrite parse_sink_inputs_cases in H.
  destruct (existsb sink_overlong (split_lines output)); congruence.
Qed.

(** ** Properties of the controller *)

Lemma Forall3_length : forall {A B C} (R : A -> B -> C -> Prop) la lb lc,
  Forall3 R la lb lc -> length lb = length la /\ length lc = length la.
Proof.
  induction 1; cbn; [split; reflexivity|]. destruct IHForall3. split; congruence.
Qed.

Lemma filter_all : forall {A} (p : A -> bool) l,
  Forall (fun x => p x = true) l -> filter p l = l.
Proof.
  induction 1 as [|x l Hx _ IH]; cbn; [reflexivity|]. rewrite Hx, IH. reflexivity.
Qed.

Lemma succeeded_le : forall rs, succeeded rs <= length rs.
Proof. intros rs. unfold succeeded. apply filter_length_le. Qed.

Lemma mute_command_skip : forall t s,
  has_id_and_type s = false -> mute_command t s = None.
Proof.
  intros t s. unfold has_id_and_type, mute_command.
  destruct (Stream.id s) as [i|]; [|reflexivity].
  destruct (Stream.type s) as [ty|]; [|reflexivity].
  destruct i as [|c i]; [reflexivity|]. cbn [PyStr.truthy negb andb orb].
  destruct ty as [|c' ty]; [reflexivity|]. cbn [PyStr.truthy negb].
  destruct (String.eqb (String c' ty) "sink-input"); [discriminate|].
  destruct (String.eqb (String c' ty) "source-output"); [discriminate|].
  reflexivity.
Qed.

Lemma mute_command_run : forall t s,
  has_id_and_type s = true ->
  exists i variant desc,
    mute_command t s = Some (i, ["pactl"; variant; i; t], desc)
    /\ Stream.id s = Some i
    /\ ((Stream.type s = Some "sink-input"
         /\ variant = "set-sink-input-mute" /\ desc = "playback")
        \/ (Stream.type s = Some "source-output"
            /\ variant = "set-source-output-mute" /\ desc = "recording")).
Proof.
  intros t s. unfold has_id_and_type, mute_command.
  destruct (Stream.id s) as [i|]; [|discriminate].
  destruct (Stream.type s) as [ty|]; [|discriminate].
  destruct i as [|c i]; [discriminate|]. cbn [PyStr.truthy negb andb orb].
  destruct ty as [|c' ty]; [discriminate|]. cbn [PyStr.truthy negb].
  destruct (String.eqb_spec (String c' ty) "sink-input") as [->|_].
  - intros _. do 3 eexists. split; [reflexivity|]. split; [reflexivity|].
    left. repeat split.
  - destruct (String.eqb_spec (String c' ty) "source-output") as [->|_];
      [|discriminate].
    intros _. do 3 eexists. split; [reflexivity|]. split; [reflexivity|].
    right. repeat split.
Qed.

Section Properties.

Context {World : Type}.
Variable pactl : list string -> World -> process * World.

Lemma run_command_spec : forall command st,
  _run_command pactl command st
  = (match fst (pactl command (world st)) with
     | Exited rc out => if Z.eqb rc 0 then Val (Some out) else Val None
     | Undecodable rc => Raise UnicodeDecodeError
     | NotStarted e => Raise (OSError e)
     end, called pactl command st).
Proof.
  intros command st.
  unfold _run_command, try_except_CalledProcessError, bind, subprocess_run,
    ret, called.
  destruct (pactl command (world st)) as [[rc out|rc|e] w]; cbn [fst snd].
  - destruct (Z.eqb rc 0); reflexivity.
  - reflexivity.
  - reflexivity.
Qed.

Lemma get_sink_inputs_spec : forall st,
  _get_sink_inputs pactl st
  = (match fst (pactl ["pactl"; "list"; "sink-inputs"] (world st)) with
     | Exited rc out =>
         parse_sink_inputs (if Z.eqb rc 0 then Some out else None)
     | Undecodable rc => Raise UnicodeDecodeError
     | NotStarted e => Raise (OSError e)
     end, called pactl ["pactl"; "list"; "sink-inputs"] st).
Proof.
  intros st. unfold _get_sink_inputs, bind, lift. rewrite run_command_spec.
  destruct (fst (pactl _ (world st))) as [rc out|rc|e]; try reflexivity.
  destruct (Z.eqb rc 0); reflexivity.
Qed.

Lemma get_source_outputs_spec : forall st,
  _get_source_outputs pactl st
  = (match fst (pactl ["pactl"; "list"; "source-outputs"] (world st)) with
     | Exited rc out =>
         Val (parse_source_outputs (if Z.eqb rc 0 then Some out else None))
     | Undecodable rc => Raise UnicodeDecodeError
     | NotStarted e => Raise (OSError e)
     end, called pactl ["pactl"; "list"; "source-outputs"] st).
Proof.
  intros st. unfold _get_source_outputs, bind. rewrite run_command_spec.
  destruct (fst (pactl _ (world st))) as [rc out|rc|e]; try reflexivity.
  destruct (Z.eqb rc 0); reflexivity.
Qed.

(** *** The loop over the selected streams *)

Lemma mute_loop_skip : forall t a s rest rs c,
  has_id_and_type s = false ->
  mute_loop pactl t a (s :: rest) rs c = mute_loop pactl t a rest rs c.
Proof.
  intros t a s rest rs c H. cbn [mute_loop].
  rewrite (mute_command_skip t s H). reflexivity.
Qed.

Lemma mute_loop_run : forall t a s rest,
  has_id_and_type s = true ->
  exists i variant desc,
    Stream.id s = Some i
    /\ ((Stream.type s = Some "sink-input"
         /\ variant = "set-sink-input-mute" /\ desc = "playback")
        \/ (Stream.type s = Some "source-output"
            /\ variant = "set-source-output-mute" /\ desc = "recording"))
    /\ forall rs c st,
        let cmd := ["pactl"; variant; i; t] in
        mute_loop pactl t a (s :: rest) rs c st
        = match fst (pactl cmd (world st)) with
          | Exited rc out =>
              mute_loop pactl t a rest
                (rs ++ [StreamResult.mk i desc
                          (get (Stream.app_name s) "Unknown")
                          (Z.eqb rc 0) a])
                (if Z.eqb rc 0 then c + 1 else c)
                (called pactl cmd st)
          | Undecodable rc => (Raise UnicodeDecodeError, called pactl cmd st)
          | NotStarted e => (Raise (OSError e), called pactl cmd st)
          end.
Proof.
  intros t a s rest H.
  destruct (mute_command_run t s H) as (i & variant & desc & Hc & Hi & Hty).
  exists i, variant, desc. split; [exact Hi|]. split; [exact Hty|].
  intros rs c st cmd. cbn [mute_loop]. rewrite Hc.
  unfold bind. rewrite run_command_spec. fold cmd.
  destruct (fst (pactl cmd (world st))) as [rc out|rc|e]; try reflexivity.
  destruct (Z.eqb rc 0); reflexivity.
Qed.

(** When the loop ends normally it has made one invocation, and recorded
    one result, for each stream with an id and a type, in order. *)
Lemma mute_loop_val : forall t a streams rs c st rs' c' st',
  mute_loop pactl t a streams rs c st = (Val (rs', c'), st') ->
  exists es new,
    Forall3 (attempt t a) (filter has_id_and_type streams) es new
    /\ trace st' = trace st ++ es
    /\ rs' = rs ++ new
    /\ c' = c + succeeded new.
Proof.
  intros t a streams. induction streams as [|s rest IH];
    intros rs c st rs' c' st' H.
  - cbn in H. injection H as <- <- <-.
    exists [], []. repeat split; rewrite ?app_nil_r; auto using Forall3_nil.
  - cbn [filter]. destruct (has_id_and_type s) eqn:Hs.
    + destruct (mute_loop_run t a s rest Hs)
        as (i & variant & desc & Hi & Hty & Hrun).
      rewrite Hrun in H. cbn zeta in H.
      destruct (fst (pactl ["pactl"; variant; i; t] (world st)))
        as [rc out|rc|e] eqn:Hp; [|discriminate|discriminate].
      apply IH in H. destruct H as (es & new & HF & Htr & -> & ->).
      exists ((["pactl"; variant; i; t], Exited rc out) :: es),
        (StreamResult.mk i desc (get (Stream.app_name s) "Unknown")
                         (Z.eqb rc 0) a :: new).
      split; [|split; [|split]].
      * apply Forall3_cons; [|exact HF].
        exists i. split; [exact Hi|]. cbn [fst snd]. split.
        { destruct Hty as [(Hty & -> & ->)|(Hty & -> & ->)]; [left|right];
            (split; [exact Hty|split; reflexivity]). }
        split; [reflexivity|]. split; [reflexivity|].
        split; [|reflexivity].
        reflexivity.
      * rewrite Htr. unfold called. cbn [trace]. rewrite Hp.
        rewrite <- app_assoc. reflexivity.
      * rewrite <- app_assoc. reflexivity.
      * unfold succeeded. cbn [filter StreamResult.success].
        destruct (Z.eqb rc 0); cbn [length]; lia.
    + rewrite (mute_loop_skip t a s rest rs c Hs) in H.
      apply IH in H. exact H.
Qed.


(** With a tool that can be started the loop ends normally. *)
Lemma mute_loop_total : forall t a streams rs c st,
  starts pactl ->
  exists r st', mute_loop pactl t a streams rs c st = (Val r, st').
Proof.
  intros t a streams. induction streams as [|s rest IH];
    intros rs c st Hstarts.
  - do 2 eexists. reflexivity.
  - destruct (has_id_and_type s) eqn:Hs.
    + destruct (mute_loop_run t a s rest Hs)
        as (i & variant & desc & _ & _ & Hrun).
      rewrite Hrun. cbn zeta.
      destruct (Hstarts ["pactl"; variant; i; t] (world st))
        as (rc & out & ->).
      apply IH. exact Hstarts.
    + rewrite (mute_loop_skip t a s rest rs c Hs). apply IH. exact Hstarts.
Qed.

(** *** The two operations after the selection *)

Lemma set_mute_selected : forall mute st streams st1,
  _find_discord_streams pactl st = (Val streams, st1) ->
  set_mute pactl mute st
  = match streams with
    | [] => (Val no_streams, st1)
    | _ :: _ =>
        let target_state := if mute then "1" else "0" in
        let action := if mute then "muted" else "unmuted" in
        match mute_loop pactl target_state action streams [] 0 st1 with
        | (Val r, st2) =>
            (Val (summary action streams (fst r) (snd r)), st2)
        | (Raise e, st2) => (Raise e, st2)
        end
    end.
Proof.
  intros mute st streams st1 H. unfold set_mute, bind at 1. rewrite H.
  destruct streams; reflexivity.
Qed.

Lemma toggle_mute_selected : forall st streams st1,
  _find_discord_streams pactl st = (Val streams, st1) ->
  toggle_mute pactl st
  = match streams with
    | [] => (Val no_streams, st1)
    | first_stream :: _ =>
        let is_currently_muted := get (Stream.muted first_stream) false in
        let target_state := if is_currently_muted then "0" else "1" in
        let action := if is_currently_muted then "unmuted" else "muted" in
        match mute_loop pactl target_state action streams [] 0 st1 with
        | (Val r, st2) =>
            (Val (summary action streams (fst r) (snd r)), st2)
        | (Raise e, st2) => (Raise e, st2)
        end
    end.
Proof.
  intros st streams st1 H. unfold toggle_mute, bind at 1. rewrite H.
  destruct streams; reflexivity.
Qed.

(** [toggle_mute] is [set_mute] at the negation of the first stream's
    flag. *)
Lemma toggle_mute_is_set_mute : forall st first rest st1,
  _find_discord_streams pactl st = (Val (first :: rest), st1) ->
  toggle_mute pactl st
  = set_mute pactl (negb (get (Stream.muted first) false)) st.
Proof.
  intros st first rest st1 H.
  rewrite (toggle_mute_selected st _ st1 H), (set_mute_selected _ st _ st1 H).
  destruct (get (Stream.muted first) false); reflexivity.
Qed.

(** What a summary returned for a non-empty selection is made of. *)
Lemma set_mute_summary : forall mute st streams st1 s st2,
  _find_discord_streams pactl st = (Val streams, st1) ->
  streams <> [] ->
  set_mute pactl mute st = (Val s, st2) ->
  let target_state := if mute then "1" else "0" in
  let action := if mute then "muted" else "unmuted" in
  exists es rs,
    s = summary action streams rs (succeeded rs)
    /\ trace st2 = trace st1 ++ es
    /\ Forall3 (attempt target_state action)
               (filter has_id_and_type streams) es rs.
Proof.
  intros mute st streams st1 s st2 Hsel Hne H target_state action.
  rewrite (set_mute_selected mute st streams st1 Hsel) in H.
  destruct streams as [|x l]; [congruence|]. cbn zeta in H.
  fold target_state action in H.
  destruct (mute_loop pactl target_state action (x :: l) [] 0 st1)
    as [[[rs c]|e] st'] eqn:Hloop; [|discriminate].
  injection H as <- <-.
  apply mute_loop_val in Hloop.
  destruct Hloop as (es & new & HF & Htr & -> & ->).
  exists es, new. cbn [fst snd app Nat.add]. auto.
Qed.

End Properties.

(** ** The claims of the specification *)

Lemma select_discord_filter : forall all_streams discord_streams,
  select_discord all_streams discord_streams
  = discord_streams
    ++ filter (fun s => any_pattern_in discord_patterns
                          (lower (get (Stream.app_name s) EmptyString)))
              all_streams.
Proof.
  induction all_streams as [|s rest IH]; intros acc; cbn [select_discord filter].
  - now rewrite app_nil_r.
  - rewrite IH.
    destruct (any_pattern_in discord_patterns
                (lower (get (Stream.app_name s) EmptyString)));
      [rewrite <- app_assoc|]; reflexivity.
Qed.

Lemma any_pattern_in_existsb : forall patterns name,
  any_pattern_in patterns name
  = existsb (fun p => contains (lower p) name) patterns.
Proof.
  induction patterns as [|p rest IH]; intros name; cbn [any_pattern_in existsb].
  - reflexivity.
  - rewrite IH. destruct (contains (lower p) name); reflexivity.
Qed.

(** The five patterns of the code, lowered at each use, select what the
    four members of the specification's set select. *)
Lemma code_patterns_spec : forall s,
  any_pattern_in discord_patterns (lower (get (Stream.app_name s) EmptyString))
  = spec_selected s.
Proof.
  intros s. rewrite any_pattern_in_existsb. unfold spec_selected.
  destruct (Stream.app_name s) as [name|]; [|reflexivity].
  unfold get, discord_patterns, spec_patterns. cbn [existsb].
  change (lower "WEBRTC VoiceEngine") with "webrtc voiceengine".
  change (lower "Discord") with "discord".
  change (lower "discord") with "discord".
  change (lower "playStream") with "playstream".
  change (lower "recStream") with "recstream".
  destruct (contains "webrtc voiceengine" (lower name)),
    (contains "discord" (lower name)); reflexivity.
Qed.

Lemma filter_skip_lt : forall {A} (p : A -> bool) l x,
  In x l -> p x = false -> length (filter p l) < length l.
Proof.
  induction l as [|a l IH]; intros x Hin Hx; [destruct Hin|].
  cbn [filter length]. destruct Hin as [->|Hin].
  - rewrite Hx. pose proof (filter_length_le p l). lia.
  - specialize (IH x Hin Hx). destruct (p a); cbn [length]; lia.
Qed.

Section Claims.

Context {World : Type}.
Variable pactl : list string -> World -> process * World.

Lemma perform_selected : forall op st streams st1,
  _find_discord_streams pactl st = (Val streams, st1) ->
  streams <> [] ->
  perform pactl op st = set_mute pactl (target op streams) st.
Proof.
  intros [mute|] st streams st1 H Hne; [reflexivity|].
  destruct streams as [|first rest]; [congruence|].
  exact (toggle_mute_is_set_mute pactl st first rest st1 H).
Qed.

Lemma perform_nothing_selected : forall op st st1,
  _find_discord_streams pactl st = (Val [], st1) ->
  perform pactl op st = (Val no_streams, st1).
Proof.
  intros [mute|] st st1 H; cbn [perform].
  - now rewrite (set_mute_selected pactl mute st [] st1 H).
  - now rewrite (toggle_mute_selected pactl st [] st1 H).
Qed.

Lemma perform_summary : forall op st streams st1 s st2,
  _find_discord_streams pactl st = (Val streams, st1) ->
  streams <> [] ->
  perform pactl op st = (Val s, st2) ->
  exists es rs,
    s = summary (label (target op streams)) streams rs (succeeded rs)
    /\ trace st2 = trace st1 ++ es
    /\ Forall3 (attempt (state_argument (target op streams))
                        (label (target op streams)))
               (filter has_id_and_type streams) es rs.
Proof.
  intros op st streams st1 s st2 Hsel Hne H.
  rewrite (perform_selected op st streams st1 Hsel Hne) in H.
  exact (set_mute_summary pactl _ st streams st1 s st2 Hsel Hne H).
Qed.

(** A returned summary comes after a selection. *)
Lemma perform_val_selected : forall op st s st2,
  perform pactl op st = (Val s, st2) ->
  exists streams st1, _find_discord_streams pactl st = (Val streams, st1).
Proof.
  intros op st s st2 H.
  destruct (_find_discord_streams pactl st) as [[streams|e] st1] eqn:Hsel.
  - exists streams, st1. reflexivity.
  - destruct op; cbn [perform] in H; unfold set_mute, toggle_mute, bind in H;
      rewrite Hsel in H; discriminate.
Qed.

(** The selection, from the two invocations it makes. *)
Lemma find_discord_streams_cases : forall st,
  let st1 := called pactl list_sink_inputs st in
  let st2 := called pactl list_source_outputs st1 in
  _find_discord_streams pactl st
  = match fst (pactl list_sink_inputs (world st)) with
    | NotStarted e => (Raise (OSError e), st1)
    | Undecodable rc => (Raise UnicodeDecodeError, st1)
    | Exited rc1 out1 =>
        match parse_sink_inputs (if Z.eqb rc1 0 then Some out1 else None) with
        | Raise e => (Raise e, st1)
        | Val sinks =>
            match fst (pactl list_source_outputs (world st1)) with
            | NotStarted e => (Raise (OSError e), st2)
            | Undecodable rc => (Raise UnicodeDecodeError, st2)
            | Exited rc2 out2 =>
                (Val (filter spec_selected
                        (sinks
                         ++ parse_source_outputs
                              (if Z.eqb rc2 0 then Some out2 else None))),
                 st2)
            end
        end
    end.
Proof.
  intros st st1 st2. unfold _find_discord_streams, bind.
  rewrite get_sink_inputs_spec. fold list_sink_inputs. fold st1.
  destruct (fst (pactl list_sink_inputs (world st))) as [rc1 out1|rc1|e];
    try reflexivity.
  destruct (parse_sink_inputs (if Z.eqb rc1 0 then Some out1 else None))
    as [sinks|e]; [|reflexivity].
  rewrite get_source_outputs_spec. fold list_source_outputs. fold st2.
  destruct (fst (pactl list_source_outputs (world st1))) as [rc2 out2|rc2|e];
    try reflexivity.
  unfold ret. rewrite select_discord_filter. cbn [app].
  rewrite (filter_ext _ _ code_patterns_spec). reflexivity.
Qed.

(** With a tool that can be started and a playback listing on which [int]
    does not raise, the selection returns. *)
Lemma find_discord_streams_total : forall st,
  starts pactl ->
  (forall out, fst (pactl list_sink_inputs (world st)) = Exited 0 out ->
               existsb sink_overlong (split_lines out) = false) ->
  exists streams st1, _find_discord_streams pactl st = (Val streams, st1).
Proof.
  intros st Hstarts Hlong. rewrite find_discord_streams_cases. cbn zeta.
  destruct (Hstarts list_sink_inputs (world st)) as (rc1 & out1 & Hp).
  rewrite Hp.
  assert (Hparse : exists sinks,
            parse_sink_inputs (if Z.eqb rc1 0 then Some out1 else None)
            = Val sinks).
  { destruct (Z.eqb_spec rc1 0) as [->|_]; [|eexists; reflexivity].
    rewrite parse_sink_inputs_cases, (Hlong out1 Hp). eexists. reflexivity. }
  destruct Hparse as (sinks & ->).
  destruct (Hstarts list_source_outputs
              (world (called pactl list_sink_inputs st)))
    as (rc2 & out2 & ->).
  do 2 eexists. reflexivity.
Qed.


(** C4 (amended).  For every output of the tool with exactly [N]
    record-start marker lines in which no attribute line
    ([application.name], [Mute:], [Volume:]) comes before the first
    marker and, for the playback listing, no volume line has a percentage
    of more digits than [int] converts, the listing function returns
    exactly [N] records, whatever other lines lie in between. *)
Theorem listing_count : forall st output N,
  (fst (pactl ["pactl"; "list"; "sink-inputs"] (world st)) = Exited 0 output ->
   field_before_marker sink_marker sink_field (split_lines output) = false ->
   existsb sink_overlong (split_lines output) = false ->
   count sink_marker (split_lines output) = N ->
   exists l, fst (_get_sink_inputs pactl st) = Val l /\ length l = N)
  /\ (fst (pactl ["pactl"; "list"; "source-outputs"] (world st))
      = Exited 0 output ->
      field_before_marker source_marker source_field (split_lines output)
      = false ->
      count source_marker (split_lines output) = N ->
      exists l, fst (_get_source_outputs pactl st) = Val l /\ length l = N).
Proof.
  intros st output N. split.
  - intros Hp Hq Hlong HN. rewrite get_sink_inputs_spec, Hp. cbn [fst Z.eqb].
    rewrite parse_sink_inputs_cases, Hlong.
    eexists; split; [reflexivity|].
    rewrite parse_sink_inputs_length, Hq, HN. lia.
  - intros Hp Hq HN. rewrite get_source_outputs_spec, Hp. cbn [fst Z.eqb].
    eexists; split; [reflexivity|].
    rewrite parse_source_outputs_length, Hq, HN. lia.
Qed.

(** C6.  [_find_discord_streams] returns exactly the records of the
    playback inventory followed by the recording inventory, in their
    order, whose application name, lowered, contains a member of the
    set webrtc voiceengine, discord, playstream, recstream; a record
    without an application name is left out, and the case of the name
    does not matter. *)
Theorem find_discord_streams_spec : forall st sinks st1 sources st2,
  _get_sink_inputs pactl st = (Val sinks, st1) ->
  _get_source_outputs pactl st1 = (Val sources, st2) ->
  _find_discord_streams pactl st
  = (Val (filter spec_selected sinks ++ filter spec_selected sources), st2)
  /\ filter spec_selected sinks ++ filter spec_selected sources
     = filter spec_selected (sinks ++ sources)
  /\ (forall s, Stream.app_name s = None -> spec_selected s = false)
  /\ (forall s, Stream.app_name s = Some "WEBRTC VoiceEngine" ->
        spec_selected s = true)
  /\ (forall s, Stream.app_name s = Some "webrtc voiceengine" ->
        spec_selected s = true)
  /\ (forall s n m, Stream.app_name s = Some n ->
        Stream.app_name m = Some (lower n) ->
        spec_selected s = spec_selected m).
Proof.
  intros st sinks st1 sources st2 H1 H2. split; [|split; [|repeat split]].
  - unfold _find_discord_streams, bind. rewrite H1, H2. unfold ret.
    rewrite select_discord_filter. cbn [app].
    rewrite (filter_ext _ _ code_patterns_spec), filter_app. reflexivity.
  - now rewrite filter_app.
  - intros s H. unfold spec_selected. now rewrite H.
  - intros s H. unfold spec_selected. rewrite H. reflexivity.
  - intros s H. unfold spec_selected. rewrite H. reflexivity.
  - intros s n m Hs Hm. unfold spec_selected. rewrite Hs, Hm.
    assert (Hidem : forall x, lower (lower x) = lower x).
    { induction x as [|c x IHx]; cbn [lower]; [reflexivity|].
      rewrite IHx. f_equal.
      destruct c as [[] [] [] [] [] [] [] []]; reflexivity. }
    now rewrite Hidem.
Qed.

(** C2 (amended).  For every non-empty selection whose streams all carry
    a non-empty id and the type sink-input or source-output, and a tool
    that can be started (every invocation exits, with text as its
    output), [set_mute] and [toggle_mute] issue exactly one
    per-stream mute-set command per selected stream, in order (the
    playback variant for a sink-input record, the recording variant for
    a source-output record, with the argument 1 or 0 of the target
    state) and produce exactly one result per selected stream, whose
    [success] is true iff that invocation exited with return code zero;
    an invocation that exits with another return code is recorded with
    [success] false and the remaining streams are still processed. *)
Theorem mute_per_stream : forall op st streams st1,
  starts pactl ->
  _find_discord_streams pactl st = (Val streams, st1) ->
  streams <> [] ->
  Forall (fun s => has_id_and_type s = true) streams ->
  exists s st2 es rs,
    perform pactl op st = (Val s, st2)
    /\ trace st2 = trace st1 ++ es
    /\ Summary.results s = Some rs
    /\ length es = length streams
    /\ length rs = length streams
    /\ Forall3 (attempt (state_argument (target op streams))
                        (label (target op streams)))
               streams es rs.
Proof.
  intros op st streams st1 Hstarts Hsel Hne Hall.
  assert (Hval : exists s st2, perform pactl op st = (Val s, st2)).
  { rewrite (perform_selected op st streams st1 Hsel Hne).
    rewrite (set_mute_selected pactl _ st streams st1 Hsel).
    destruct streams as [|x l]; [congruence|]. cbn zeta.
    destruct (mute_loop_total pactl
                (if target op (x :: l) then "1" else "0")
                (if target op (x :: l) then "muted" else "unmuted")
                (x :: l) [] 0 st1 Hstarts) as (r & st2 & ->).
    do 2 eexists. reflexivity. }
  destruct Hval as (s & st2 & Hval).
  destruct (perform_summary op st streams st1 s st2 Hsel Hne Hval)
    as (es & rs & -> & Htr & HF).
  rewrite (filter_all _ _ Hall) in HF.
  destruct (Forall3_length _ _ _ _ HF) as [Hes Hrs].
  exists (summary (label (target op streams)) streams rs (succeeded rs)),
    st2, es, rs.
  repeat split; assumption.
Qed.

(** C3 (amended).  When no stream is selected, [set_mute] (with either
    argument) and [toggle_mute] return a summary with [success] false
    and [streams_affected] 0 that has no [total_streams] key (nor
    [action], nor [results]). *)
Theorem nothing_selected : forall op st st1,
  _find_discord_streams pactl st = (Val [], st1) ->
  exists s,
    perform pactl op st = (Val s, st1)
    /\ Summary.success s = false
    /\ Summary.streams_affected s = 0
    /\ Summary.total_streams s = None
    /\ Summary.action s = None
    /\ Summary.results s = None
    /\ Summary.message s = "No Discord streams found".
Proof.
  intros op st st1 H. exists no_streams.
  rewrite (perform_nothing_selected op st st1 H). repeat split.
Qed.


(** C7.  Every summary returned by [set_mute] or [toggle_mute] satisfies
    0 <= affected <= total, affected is the number of results whose
    [success] is true, and the overall [success] is true iff affected is
    positive.  (The summary of an empty selection, which has neither
    [total_streams] nor [results], has affected 0 and success false.) *)
Theorem summary_counts : forall op st s st2,
  perform pactl op st = (Val s, st2) ->
  (Summary.success s = true <-> 0 < Summary.streams_affected s)
  /\ (forall total, Summary.total_streams s = Some total ->
        0 <= Summary.streams_affected s <= total)
  /\ (forall rs, Summary.results s = Some rs ->
        Summary.streams_affected s = succeeded rs)
  /\ (Summary.total_streams s = None \/ Summary.results s = None ->
        Summary.streams_affected s = 0).
Proof.
  intros op st s st2 H.
  destruct (perform_val_selected op st s st2 H) as (streams & st1 & Hsel).
  destruct streams as [|x l].
  - rewrite (perform_nothing_selected op st st1 Hsel) in H.
    injection H as <- <-. cbn. repeat split; try discriminate; try lia.
  - assert (Hne : x :: l <> []) by discriminate.
    destruct (perform_summary op st _ st1 s st2 Hsel Hne H)
      as (es & rs & -> & _ & HF).
    destruct (Forall3_length _ _ _ _ HF) as [_ Hrs].
    pose proof (succeeded_le rs) as Hle.
    pose proof (filter_length_le has_id_and_type (x :: l)) as Hfl.
    unfold summary.
    cbn [Summary.success Summary.streams_affected Summary.total_streams
         Summary.results].
    split; [|split; [|split]].
    + rewrite Nat.ltb_lt. reflexivity.
    + intros total [= <-]. cbn [length] in Hfl. lia.
    + intros rs' [= <-]. reflexivity.
    + intros [Hn|Hn]; discriminate.
Qed.

(** C8.  [get_status] returns found false, the message
    No Discord streams found and no streams when the selection is
    empty; otherwise found true and one display record per selected
    stream, in order, whose type is playback for a sink-input record and
    recording for a source-output record and whose app_name is Unknown
    when the record has none. *)
Theorem get_status_spec : forall st streams st1,
  _find_discord_streams pactl st = (Val streams, st1) ->
  exists r,
    get_status pactl st = (Val r, st1)
    /\ (streams = [] ->
          Status.found r = false
          /\ Status.message r = "No Discord streams found"
          /\ Status.streams r = [])
    /\ (streams <> [] ->
          Status.found r = true
          /\ length (Status.streams r) = length streams
          /\ Forall2 displays streams (Status.streams r)).
Proof.
  intros st streams st1 H. unfold get_status, bind. rewrite H.
  destruct streams as [|x l].
  - eexists. split; [reflexivity|]. split; [|congruence].
    intros _. repeat split.
  - eexists. split; [reflexivity|]. split; [discriminate|].
    intros _. cbn [Status.found Status.streams]. split; [reflexivity|].
    split; [apply length_map|].
    generalize (x :: l). clear. intros streams.
    induction streams as [|s rest IH]; cbn [map]; constructor; [|exact IH].
    unfold displays, stream_info.
    cbn [StreamInfo.type StreamInfo.app_name StreamInfo.id StreamInfo.muted
         StreamInfo.volume].
    repeat split.
    + intros ->. reflexivity.
    + intros ->. reflexivity.
    + intros ->. reflexivity.
    + intros n ->. reflexivity.
Qed.

(** C9.  In [set_mute] and [toggle_mute] a selected stream whose id is
    absent or the empty string, or whose type is absent or not one of
    the two stream types, is skipped: the commands issued and the
    results recorded are those of the other selected streams, in order,
    while [total_streams] counts every selected stream; so the results
    are fewer than [total_streams] as soon as one stream is skipped. *)
Theorem skipped_streams : forall op st streams st1 s st2,
  _find_discord_streams pactl st = (Val streams, st1) ->
  streams <> [] ->
  perform pactl op st = (Val s, st2) ->
  (forall x,
     Stream.id x = None \/ Stream.id x = Some EmptyString
     \/ Stream.type x = None
     \/ (Stream.type x <> Some "sink-input"
         /\ Stream.type x <> Some "source-output") ->
     has_id_and_type x = false)
  /\ Summary.total_streams s = Some (length streams)
  /\ exists es rs,
       Summary.results s = Some rs
       /\ trace st2 = trace st1 ++ es
       /\ Forall3 (attempt (state_argument (target op streams))
                           (label (target op streams)))
                  (filter has_id_and_type streams) es rs
       /\ length es = length (filter has_id_and_type streams)
       /\ length rs = length (filter has_id_and_type streams)
       /\ length rs <= length streams
       /\ (forall x, In x streams -> has_id_and_type x = false ->
             length rs < length streams).
Proof.
  intros op st streams st1 s st2 Hsel Hne H. split.
  { intros x. unfold has_id_and_type.
    intros [Hx|[Hx|[Hx|[Hx Hy]]]].
    - now rewrite Hx.
    - rewrite Hx. now destruct (Stream.type x).
    - rewrite Hx. now destruct (Stream.id x).
    - destruct (Stream.id x); [|reflexivity].
      destruct (Stream.type x) as [ty|]; [|reflexivity].
      destruct (String.eqb_spec ty "sink-input") as [->|_]; [congruence|].
      destruct (String.eqb_spec ty "source-output") as [->|_]; [congruence|].
      apply andb_false_r. }
  destruct (perform_summary op st streams st1 s st2 Hsel Hne H)
    as (es & rs & -> & Htr & HF).
  destruct (Forall3_length _ _ _ _ HF) as [Hes Hrs].
  split; [reflexivity|]. exists es, rs.
  repeat split; try assumption.
  - rewrite Hrs. apply filter_length_le.
  - intros x Hin Hx. rewrite Hrs. exact (filter_skip_lt _ _ x Hin Hx).
Qed.

(** C10 (amended).  Every result that [get_status] returns has [success]
    true: when streams are found, when none is found, and when the tool
    exited with an error status for both listings, which gives the result
    of an empty inventory; [get_status] never returns [success] false.
    It does not return in every state: when the tool cannot be started it
    raises the error instead of returning a result, and it raises the
    [ValueError] of [int] when a volume line of the playback listing has a
    percentage of more digits than [int] converts.  It does return when
    every invocation exits with its text and the playback listing has no
    such line. *)
Theorem get_status_success : forall st,
  (forall r st', get_status pactl st = (Val r, st') ->
     Status.success r = true)
  /\ (forall rc1 out1 w1 rc2 out2 w2,
        pactl ["pactl"; "list"; "sink-inputs"] (world st)
        = (Exited rc1 out1, w1) ->
        pactl ["pactl"; "list"; "source-outputs"] w1
        = (Exited rc2 out2, w2) ->
        rc1 <> 0%Z -> rc2 <> 0%Z ->
        fst (get_status pactl st)
        = Val (Status.mk true false "No Discord streams found" []))
  /\ (forall e,
        fst (pactl ["pactl"; "list"; "sink-inputs"] (world st))
        = NotStarted e ->
        fst (get_status pactl st) = Raise (OSError e))
  /\ (starts pactl ->
      (forall out,
         fst (pactl ["pactl"; "list"; "sink-inputs"] (world st))
         = Exited 0 out ->
         existsb sink_overlong (split_lines out) = false) ->
      exists r st',
        get_status pactl st = (Val r, st') /\ Status.success r = true)
  /\ (forall out,
        fst (pactl ["pactl"; "list"; "sink-inputs"] (world st))
        = Exited 0 out ->
        existsb sink_overlong (split_lines out) = true ->
        fst (get_status pactl st) = Raise ValueError).
Proof.
  intros st. split; [|split; [|split; [|split]]].
  - intros r st' H. unfold get_status, bind in H.
    destruct (_find_discord_streams pactl st) as [[[|x l]|e] st1];
      try discriminate; injection H as <- <-; reflexivity.
  - intros rc1 out1 w1 rc2 out2 w2 H1 H2 Hrc1 Hrc2.
    apply Z.eqb_neq in Hrc1, Hrc2.
    unfold get_status, _find_discord_streams, bind.
    rewrite get_sink_inputs_spec, H1. cbn [fst]. rewrite Hrc1.
    cbn [parse_sink_inputs].
    rewrite get_source_outputs_spec. unfold called at 1. cbn [world].
    rewrite H1. cbn [snd]. rewrite H2. cbn [fst]. rewrite Hrc2.
    reflexivity.
  - intros e He.
    unfold get_status, _find_discord_streams, bind.
    rewrite get_sink_inputs_spec, He. reflexivity.
  - intros Hstarts Hlong.
    destruct (find_discord_streams_total st Hstarts Hlong)
      as (streams & st1 & Hsel).
    unfold get_status, bind. rewrite Hsel.
    destruct streams as [|x l]; do 2 eexists; split; reflexivity.
  - intros out Hp Hlong.
    unfold get_status, _find_discord_streams, bind.
    rewrite get_sink_inputs_spec, Hp. cbn [fst Z.eqb].
    rewrite parse_sink_inputs_cases, Hlong. reflexivity.
Qed.

End Claims.

(** ** The claims on the scripted tool *)

Lemma tool_starts : forall sinks sources other,
  (exists rc out, sinks = Exited rc out) ->
  (exists rc out, sources = Exited rc out) ->
  (forall command, exists rc out, other command = Exited rc out) ->
  starts (Script.tool sinks sources other).
Proof.
  intros sinks sources other Hs Hr Ho command w.
  unfold Script.tool. cbn [fst].
  destruct (Script.command_eqb command ["pactl"; "list"; "sink-inputs"]);
    [exact Hs|].
  destruct (Script.command_eqb command ["pactl"; "list"; "source-outputs"]);
    [exact Hr|].
  apply Ho.
Defined.

Lemma flaky_starts : starts Script.flaky.
Proof.
  apply tool_starts.
  - do 2 eexists. reflexivity.
  - do 2 eexists. reflexivity.
  - intros command. unfold Script.fail_43.
    destruct command as [|a [|b [|i [|d [|x l]]]]]; try (do 2 eexists; reflexivity).
    destruct (String.eqb i "43"); do 2 eexists; reflexivity.
Defined.

Lemma healthy_starts : starts Script.healthy.
Proof.
  apply tool_starts.
  - do 2 eexists. reflexivity.
  - do 2 eexists. reflexivity.
  - intros command. do 2 eexists. reflexivity.
Defined.



(** C2, on a tool whose mute command fails for stream 43 of three selected
    streams. *)
Lemma mute_per_stream_witness :
  let streams := Script.selected Script.flaky in
  let st1 := Script.after_selection Script.flaky in
  length streams = 3
  /\ Forall (fun s => has_id_and_type s = true) streams
  /\ exists s st2 es rs,
       perform Script.flaky (SetMute true) Script.init = (Val s, st2)
       /\ trace st2 = trace st1 ++ es
       /\ Summary.results s = Some rs
       /\ length es = length streams
       /\ length rs = length streams
       /\ Forall3 (attempt "1" "muted") streams es rs.
Proof.
  intros streams st1.
  assert (Hall : Forall (fun s => has_id_and_type s = true) streams)
    by (repeat constructor).
  split; [reflexivity|]. split; [exact Hall|].
  apply (mute_per_stream Script.flaky (SetMute true) Script.init streams st1
           flaky_starts).
  - vm_compute. reflexivity.
  - discriminate.
  - exact Hall.
Defined.

(** C2 as stated fails: of two selected streams the one whose marker has
    no digits gets no command and no result. *)
Lemma stream_without_id_gets_no_command :
  let streams := Script.selected Script.no_id in
  let st1 := Script.after_selection Script.no_id in
  _find_discord_streams Script.no_id Script.init = (Val streams, st1)
  /\ length streams = 2
  /\ exists s st2 rs,
       set_mute Script.no_id true Script.init = (Val s, st2)
       /\ trace st2
          = trace st1
            ++ [(["pactl"; "set-sink-input-mute"; "43"; "1"],
                 Exited 0 EmptyString)]
       /\ Summary.results s = Some rs
       /\ length rs = 1
       /\ length rs <> length streams.
Proof.
  intros streams st1. split; [vm_compute; reflexivity|].
  split; [reflexivity|].
  do 3 eexists. split; [vm_compute; reflexivity|].
  split; [vm_compute; reflexivity|].
  split; [reflexivity|]. split; [reflexivity|]. vm_compute. discriminate.
Qed.

(** C3, on a tool that lists nothing. *)
Lemma nothing_selected_witness :
  _find_discord_streams Script.silent Script.init
  = (Val [], Script.after_selection Script.silent)
  /\ exists s,
       perform Script.silent ToggleMute Script.init
       = (Val s, Script.after_selection Script.silent)
       /\ Summary.success s = false
       /\ Summary.streams_affected s = 0
       /\ Summary.total_streams s = None
       /\ Summary.action s = None
       /\ Summary.results s = None
       /\ Summary.message s = "No Discord streams found".
Proof.
  assert (H : _find_discord_streams Script.silent Script.init
              = (Val [], Script.after_selection Script.silent))
    by (vm_compute; reflexivity).
  split; [exact H|].
  exact (nothing_selected Script.silent ToggleMute Script.init _ H).
Defined.

(** C3 as stated fails: the summary of an empty selection has no
    total_streams, so its total is not 0. *)
Lemma no_total_when_nothing_selected :
  fst (_find_discord_streams Script.silent Script.init) = Val []
  /\ exists s,
       fst (set_mute Script.silent true Script.init) = Val s
       /\ Summary.success s = false
       /\ Summary.streams_affected s = 0
       /\ Summary.total_streams s = None
       /\ Summary.total_streams s <> Some 0.
Proof.
  split; [vm_compute; reflexivity|].
  eexists. split; [vm_compute; reflexivity|].
  repeat split. discriminate.
Qed.

(** C4, on the listings of the scripted tool: three and one records. *)
Lemma listing_count_witness :
  count sink_marker (split_lines Script.sinks_text) = 3
  /\ existsb sink_overlong (split_lines Script.sinks_text) = false
  /\ count source_marker (split_lines Script.sources_text) = 1
  /\ (exists l, fst (_get_sink_inputs Script.healthy Script.init) = Val l
                /\ length l = 3)
  /\ (exists l,
        fst (_get_source_outputs
               (Script.tool (Exited 0 Script.sources_text)
                            (Exited 0 Script.sources_text) Script.ok)
               Script.init) = Val l
        /\ length l = 1).
Proof.
  split; [vm_compute; reflexivity|]. split; [vm_compute; reflexivity|].
  split; [vm_compute; reflexivity|]. split.
  - apply (proj1 (listing_count Script.healthy Script.init
                    Script.sinks_text 3)); vm_compute; reflexivity.
  - apply (proj2 (listing_count
                    (Script.tool (Exited 0 Script.sources_text)
                                 (Exited 0 Script.sources_text) Script.ok)
                    Script.init Script.sources_text 1));
      vm_compute; reflexivity.
Defined.

(** C4 as stated fails: a text without a marker line whose lines are
    attribute lines gives one record, in both listings. *)
Lemma record_without_marker :
  count sink_marker (split_lines Script.stray_text) = 0
  /\ count source_marker (split_lines Script.stray_text) = 0
  /\ fst (_get_sink_inputs Script.stray Script.init)
     = Val [Stream.mk None None (Some "Discord") (Some true) None]
  /\ (exists l, fst (_get_sink_inputs Script.stray Script.init) = Val l
                /\ length l = 1)
  /\ (exists l, fst (_get_source_outputs Script.stray Script.init) = Val l
                /\ length l = 1).
Proof.
  split; [vm_compute; reflexivity|]. split; [vm_compute; reflexivity|].
  split; [vm_compute; reflexivity|].
  split; eexists; (split; [vm_compute; reflexivity|reflexivity]).
Qed.



(** C6, on the two listings of the scripted tool. *)
Lemma find_discord_streams_witness :
  let sinks := parse_sink_inputs_total (Some Script.sinks_text) in
  let sources := parse_source_outputs (Some Script.sources_text) in
  length sinks = 3 /\ length sources = 1
  /\ _find_discord_streams Script.healthy Script.init
     = (Val (filter spec_selected sinks ++ filter spec_selected sources),
        Script.after_selection Script.healthy)
  /\ filter spec_selected sinks ++ filter spec_selected sources
     = [Script.stream42; Script.stream43; Script.stream7].
Proof.
  intros sinks sources.
  split; [vm_compute; reflexivity|]. split; [vm_compute; reflexivity|].
  split; [|vm_compute; reflexivity].
  apply (find_discord_streams_spec Script.healthy Script.init sinks
           (snd (_get_sink_inputs Script.healthy Script.init)) sources
           (Script.after_selection Script.healthy));
    vm_compute; reflexivity.
Defined.

(** C7, on a run in which two of three commands succeed. *)
Lemma summary_counts_witness :
  let r := perform Script.flaky (SetMute true) Script.init in
  let s := Script.returned r no_streams in
  r = (Val s, snd r)
  /\ Summary.streams_affected s = 2
  /\ Summary.total_streams s = Some 3
  /\ (Summary.success s = true <-> 0 < Summary.streams_affected s)
  /\ (forall total, Summary.total_streams s = Some total ->
        0 <= Summary.streams_affected s <= total)
  /\ (forall rs, Summary.results s = Some rs ->
        Summary.streams_affected s = succeeded rs)
  /\ (Summary.total_streams s = None \/ Summary.results s = None ->
        Summary.streams_affected s = 0).
Proof.
  intros r s.
  assert (H : r = (Val s, snd r)) by (vm_compute; reflexivity).
  split; [exact H|]. split; [reflexivity|]. split; [reflexivity|].
  exact (summary_counts Script.flaky (SetMute true) Script.init s (snd r) H).
Defined.

(** C8, on three selected streams and on an empty inventory. *)
Lemma get_status_witness :
  (exists r,
     get_status Script.healthy Script.init
     = (Val r, Script.after_selection Script.healthy)
     /\ Status.found r = true
     /\ length (Status.streams r) = 3
     /\ Forall2 displays [Script.stream42; Script.stream43; Script.stream7]
                (Status.streams r))
  /\ (exists r,
        get_status Script.silent Script.init
        = (Val r, Script.after_selection Script.silent)
        /\ Status.found r = false
        /\ Status.message r = "No Discord streams found"
        /\ Status.streams r = []).
Proof.
  split.
  - destruct (get_status_spec Script.healthy Script.init
                [Script.stream42; Script.stream43; Script.stream7]
                (Script.after_selection Script.healthy))
      as (r & Hr & _ & Hfound); [vm_compute; reflexivity|].
    exists r. split; [exact Hr|]. apply Hfound. discriminate.
  - destruct (get_status_spec Script.silent Script.init []
                (Script.after_selection Script.silent))
      as (r & Hr & Hnone & _); [vm_compute; reflexivity|].
    exists r. split; [exact Hr|]. apply Hnone. reflexivity.
Defined.

(** C9, on a selection of two streams whose first has the empty id: one
    command, one result, and a total of 2. *)
Lemma skipped_streams_witness :
  let streams := [Script.stream_no_id; Script.stream43] in
  let st1 := Script.after_selection Script.no_id in
  let r := perform Script.no_id ToggleMute Script.init in
  let s := Script.returned r no_streams in
  _find_discord_streams Script.no_id Script.init = (Val streams, st1)
  /\ r = (Val s, snd r)
  /\ has_id_and_type Script.stream_no_id = false
  /\ Summary.total_streams s = Some 2
  /\ exists es rs,
       Summary.results s = Some rs
       /\ trace (snd r) = trace st1 ++ es
       /\ Forall3 (attempt "1" "muted") [Script.stream43] es rs
       /\ length es = 1
       /\ length rs = 1
       /\ length rs < length streams.
Proof.
  intros streams st1 r s.
  assert (Hsel : _find_discord_streams Script.no_id Script.init
                 = (Val streams, st1)) by (vm_compute; reflexivity).
  assert (Hr : r = (Val s, snd r)) by (vm_compute; reflexivity).
  assert (Hne : streams <> []) by discriminate.
  destruct (skipped_streams Script.no_id ToggleMute Script.init streams st1
              s (snd r) Hsel Hne Hr)
    as (Hskip & Htotal & es & rs & Hres & Htr & HF & Hes & Hrs & _ & Hlt).
  split; [exact Hsel|]. split; [exact Hr|].
  split; [apply Hskip; right; left; reflexivity|].
  split; [exact Htotal|].
  exists es, rs. split; [exact Hres|]. split; [exact Htr|].
  split; [exact HF|]. split; [exact Hes|]. split; [exact Hrs|].
  apply (Hlt Script.stream_no_id); [left; reflexivity | reflexivity].
Defined.

(** C10, on a tool that lists three Discord streams, on a tool that exits
    with code 1, on a tool that is not found, and on a listing on which
    [int] raises. *)
Lemma get_status_success_witness :
  Status.success
    (Script.returned (get_status Script.healthy Script.init)
                     (Status.mk false false EmptyString [])) = true
  /\ fst (get_status Script.broken Script.init)
     = Val (Status.mk true false "No Discord streams found" [])
  /\ fst (get_status Script.missing Script.init)
     = Raise (OSError FileNotFoundError)
  /\ starts Script.healthy
  /\ existsb sink_overlong (split_lines Script.sinks_text) = false
  /\ (exists r st',
        get_status Script.healthy Script.init = (Val r, st')
        /\ Status.success r = true)
  /\ fst (get_status Sample.overlong Script.init) = Raise ValueError.
Proof.
  assert (Hlong : existsb sink_overlong (split_lines Script.sinks_text)
                  = false) by (vm_compute; reflexivity).
  split; [|split; [|split; [|split; [|split; [|split]]]]].
  - apply (proj1 (get_status_success Script.healthy Script.init)
             _ (snd (get_status Script.healthy Script.init))).
    vm_compute. reflexivity.
  - apply (proj1 (proj2 (get_status_success Script.broken Script.init))
             1%Z EmptyString tt 1%Z EmptyString tt);
      [reflexivity | reflexivity | discriminate | discriminate].
  - apply (proj1 (proj2 (proj2 (get_status_success Script.missing
                                  Script.init)))
             FileNotFoundError).
    reflexivity.
  - exact healthy_starts.
  - exact Hlong.
  - apply (proj1 (proj2 (proj2 (proj2 (get_status_success Script.healthy
                                         Script.init))))
             healthy_starts).
    intros out Hout.
    assert (Hsame : out = Script.sinks_text)
      by (change (Exited 0 Script.sinks_text = Exited 0 out) in Hout;
          congruence).
    rewrite Hsame. exact Hlong.
  - apply (proj2 (proj2 (proj2 (proj2 (get_status_success Sample.overlong
                                         Script.init))))
             Sample.overlong_text).
    + reflexivity.
    + vm_compute. reflexivity.
Defined.

(** C10 as stated fails: when the tool is not found it could not be
    queried at all, and [get_status] returns no result. *)
Lemma get_status_raises_without_tool :
  failed (fst (Script.missing ["pactl"; "list"; "sink-inputs"]
                 (world Script.init))) = true
  /\ fst (get_status Script.missing Script.init)
     = Raise (OSError FileNotFoundError)
  /\ forall r, fst (get_status Script.missing Script.init) <> Val r.
Proof.
  split; [reflexivity|]. split; [vm_compute; reflexivity|].
  intros r H. vm_compute in H. discriminate H.
Qed.

(** ** Further properties: how the controller uses the tool *)

Lemma raised_by_app : forall e es1 es2,
  Forall exited es1 -> raised_by e es2 -> raised_by e (es1 ++ es2).
Proof.
  intros [rc|oe| |] es1 es2 H1 H2; cbn [raised_by] in *.
  - exact H2.
  - destruct H2 as (es' & command & -> & Hex).
    exists (es1 ++ es'), command. rewrite app_assoc. split; [reflexivity|].
    apply Forall_app; auto.
  - destruct H2 as (es' & command & rc & -> & Hex).
    exists (es1 ++ es'), command, rc. rewrite app_assoc.
    split; [reflexivity|]. apply Forall_app; auto.
  - apply Forall_app; auto.
Qed.

Section Discipline.

Context {World : Type}.
Variable pactl : list string -> World -> process * World.

Lemma disciplined_ret : forall (A : Type) (a : A),
  disciplined (ret a : M World A).
Proof.
  intros A a st. exists []. cbn. rewrite app_nil_r. auto.
Qed.

(** A computation without effect that raises nothing but [ValueError]. *)
Lemma disciplined_lift : forall (A : Type) (o : outcome A),
  (forall e, o = Raise e -> e = ValueError) ->
  disciplined (lift o : M World A).
Proof.
  intros A o Ho st. exists []. cbn [lift fst snd]. rewrite app_nil_r.
  split; [reflexivity|]. destruct o as [a|e]; [constructor|].
  rewrite (Ho e eq_refl). constructor.
Qed.

Lemma disciplined_bind : forall (A B : Type) (m : M World A) (k : A -> M World B),
  disciplined m -> (forall a, disciplined (k a)) -> disciplined (bind m k).
Proof.
  intros A B m k Hm Hk st. unfold bind.
  destruct (Hm st) as (es1 & Htr1 & H1).
  destruct (m st) as [[a|e] st1]; cbn [fst snd] in *.
  - destruct (Hk a st1) as (es2 & Htr2 & H2).
    exists (es1 ++ es2). rewrite Htr2, Htr1, app_assoc.
    split; [reflexivity|].
    destruct (fst (k a st1)) as [b|e].
    + apply Forall_app; auto.
    + apply raised_by_app; assumption.
  - exists es1. auto.
Qed.

Lemma disciplined_run_command : forall command,
  disciplined (_run_command pactl command).
Proof.
  intros command st. rewrite run_command_spec. unfold called.
  cbn [fst snd trace].
  exists [(command, fst (pactl command (world st)))].
  split; [reflexivity|].
  destruct (fst (pactl command (world st))) as [rc out|rc|oe].
  - assert (Hex : Forall exited [(command, Exited rc out)])
      by (constructor; [exists rc, out; reflexivity|constructor]).
    destruct (Z.eqb rc 0); exact Hex.
  - exists [], command, rc. split; [reflexivity|constructor].
  - exists [], command. split; [reflexivity|constructor].
Qed.

Lemma disciplined_mute_loop : forall t a streams rs c,
  disciplined (mute_loop pactl t a streams rs c).
Proof.
  intros t a streams. induction streams as [|s rest IH]; intros rs c.
  - apply disciplined_ret.
  - cbn [mute_loop]. destruct (mute_command t s) as [[[i cmd] desc]|].
    + apply disciplined_bind; [apply disciplined_run_command|].
      intros result. apply IH.
    + apply IH.
Qed.

Lemma disciplined_find_discord_streams :
  disciplined (_find_discord_streams pactl).
Proof.
  unfold _find_discord_streams, _get_sink_inputs, _get_source_outputs.
  apply disciplined_bind.
  - apply disciplined_bind; [apply disciplined_run_command|].
    intros output. apply disciplined_lift.
    exact (parse_sink_inputs_raises output).
  - intros sinks. apply disciplined_bind.
    + apply disciplined_bind; [apply disciplined_run_command|].
      intros output. apply disciplined_ret.
    + intros sources. apply disciplined_ret.
Qed.

(** X1.  The operations never raise [CalledProcessError].  When they
    raise an [OSError], the last invocation they made could not be
    started; when they raise a [UnicodeDecodeError], the output of the
    last invocation they made could not be decoded; in both cases every
    earlier invocation exited.  When they raise the [ValueError] of
    [int], or return, every invocation they made exited. *)
Theorem controller_disciplined :
  disciplined (get_status pactl)
  /\ disciplined (toggle_mute pactl)
  /\ forall mute, disciplined (set_mute pactl mute).
Proof.
  split; [|split; [|intros mute]].
  - unfold get_status. apply disciplined_bind;
      [apply disciplined_find_discord_streams|].
    intros [|x l]; apply disciplined_ret.
  - unfold toggle_mute. apply disciplined_bind;
      [apply disciplined_find_discord_streams|].
    intros [|x l]; [apply disciplined_ret|].
    apply disciplined_bind; [apply disciplined_mute_loop|].
    intros r. apply disciplined_ret.
  - unfold set_mute. apply disciplined_bind;
      [apply disciplined_find_discord_streams|].
    intros [|x l]; [apply disciplined_ret|].
    apply disciplined_bind; [apply disciplined_mute_loop|].
    intros r. apply disciplined_ret.
Qed.

(** X2.  [get_status] only reads: it invokes the playback listing, and
    after it at most the recording listing, and nothing else, so never a
    mute-set command.  It returns only after both invocations, which then
    both exited.  It does not ask for the recording listing when the
    playback listing did not exit with its text (it could not be started,
    or its output could not be decoded), nor when [int] raised on the
    playback listing; in every other case it does ask for it. *)
Theorem get_status_only_lists : forall st,
  let first := fst (pactl list_sink_inputs (world st)) in
  let second :=
    fst (pactl list_source_outputs (snd (pactl list_sink_inputs (world st)))) in
  let one := [(list_sink_inputs, first)] in
  let both := [(list_sink_inputs, first); (list_source_outputs, second)] in
  exists es,
    trace (snd (get_status pactl st)) = trace st ++ es
    /\ (es = one \/ es = both)
    /\ ((exists r, fst (get_status pactl st) = Val r) ->
        es = both /\ Forall exited es)
    /\ ((forall rc out, first <> Exited rc out) -> es = one)
    /\ (fst (get_status pactl st) = Raise ValueError -> es = one)
    /\ ((exists rc out, first = Exited rc out) ->
        fst (get_status pactl st) <> Raise ValueError ->
        es = both).
Proof.
  intros st first second one both. subst first second one both.
  unfold get_status, bind.
  rewrite find_discord_streams_cases. cbn zeta. unfold called.
  cbn [world trace].
  destruct (fst (pactl list_sink_inputs (world st))) as [rc1 out1|rc1|e1].
  - destruct (parse_sink_inputs (if Z.eqb rc1 0 then Some out1 else None))
      as [sinks|e] eqn:Hparse.
    + exists [(list_sink_inputs, Exited rc1 out1);
              (list_source_outputs,
               fst (pactl list_source_outputs
                      (snd (pactl list_sink_inputs (world st)))))].
      destruct (fst (pactl list_source_outputs
                       (snd (pactl list_sink_inputs (world st)))))
        as [rc2 out2|rc2|e2].
      * split.
        { destruct (filter spec_selected _); cbn [snd trace];
            rewrite <- app_assoc; reflexivity. }
        split; [right; reflexivity|].
        split; [|split; [|split]].
        -- intros _. split; [reflexivity|].
           repeat constructor; do 2 eexists; reflexivity.
        -- intros Hn. exfalso. exact (Hn rc1 out1 eq_refl).
        -- destruct (filter spec_selected _); discriminate.
        -- reflexivity.
      * cbn [snd fst trace]. split; [rewrite <- app_assoc; reflexivity|].
        split; [right; reflexivity|].
        split; [intros (r & Hr); discriminate|].
        split; [|split; [discriminate|reflexivity]].
        intros Hn. exfalso. exact (Hn rc1 out1 eq_refl).
      * cbn [snd fst trace]. split; [rewrite <- app_assoc; reflexivity|].
        split; [right; reflexivity|].
        split; [intros (r & Hr); discriminate|].
        split; [|split; [discriminate|reflexivity]].
        intros Hn. exfalso. exact (Hn rc1 out1 eq_refl).
    + exists [(list_sink_inputs, Exited rc1 out1)].
      cbn [snd fst trace]. split; [reflexivity|].
      split; [left; reflexivity|].
      split; [intros (r & Hr); discriminate|].
      split; [reflexivity|]. split; [reflexivity|].
      intros _ Hn. exfalso. apply Hn.
      destruct (Z.eqb rc1 0); [|discriminate Hparse].
      rewrite parse_sink_inputs_cases in Hparse.
      destruct (existsb sink_overlong (split_lines out1));
        [injection Hparse as <-; reflexivity|discriminate Hparse].
  - exists [(list_sink_inputs, Undecodable rc1)].
    cbn [snd fst trace]. split; [reflexivity|].
    split; [left; reflexivity|].
    split; [intros (r & Hr); discriminate|].
    split; [reflexivity|]. split; [reflexivity|].
    intros (rc & out & Hx). discriminate Hx.
  - exists [(list_sink_inputs, NotStarted e1)].
    cbn [snd fst trace]. split; [reflexivity|].
    split; [left; reflexivity|].
    split; [intros (r & Hr); discriminate|].
    split; [reflexivity|]. split; [reflexivity|].
    intros (rc & out & Hx). discriminate Hx.
Qed.

End Discipline.

(** ** Further properties: the records of the parser *)

Lemma take_digits_all_digits : forall s, all_digits (take_digits s) = true.
Proof.
  induction s as [|c s IH]; cbn [take_digits]; [reflexivity|].
  destruct (isdigit c) eqn:Hc; [|reflexivity].
  cbn [all_digits]. now rewrite Hc, IH.
Qed.

Lemma search_hash_digits_digits : forall s d,
  search_hash_digits s = Some d -> d <> EmptyString /\ all_digits d = true.
Proof.
  induction s as [|c s IH]; intros d H; cbn [search_hash_digits] in H;
    [discriminate|].
  destruct (Ascii.eqb c "#"); [|exact (IH d H)].
  pose proof (take_digits_all_digits s) as Hd.
  destruct (take_digits s) as [|x xs]; [exact (IH d H)|].
  injection H as <-. split; [discriminate | exact Hd].
Qed.

Lemma not_truthy_empty : forall d,
  Stream.truthy d = false -> d = Stream.empty.
Proof.
  intros [[?|] [?|] [?|] [?|] [?|]] H; try discriminate H. reflexivity.
Qed.

Section Shape.

Variable step : list Stream.t * Stream.t -> string -> list Stream.t * Stream.t.
Variables marker field : string -> bool.

(** [B] holds of a record whose marker line has been read, [H] of a record
    under construction before any marker; [Q] holds of both.  [F] says
    that an attribute line comes before the first marker of the text. *)
Variables Q B H : Stream.t -> Prop.
Variable F : Prop.

Hypothesis step_begins : forall acc cur line,
  marker line = true ->
  exists cur',
    step (acc, cur) line
    = (if Stream.truthy cur then acc ++ [cur] else acc, cur')
    /\ Q cur' /\ B cur'.

Hypothesis step_keeps : forall acc cur line,
  marker line = false ->
  exists cur',
    step (acc, cur) line = (acc, cur')
    /\ Stream.truthy cur' = Stream.truthy cur || field line
    /\ (Q cur -> Q cur') /\ (B cur -> B cur') /\ (H cur -> H cur').

Lemma fold_shape : forall lines acc cur,
  Forall (fun x => Q x /\ (B x \/ (H x /\ F))) acc ->
  Q cur ->
  (B cur
   \/ (H cur
       /\ (Stream.truthy cur = true -> F)
       /\ (Stream.truthy cur = false ->
           field_before_marker marker field lines = true -> F))) ->
  let r := fold_left step lines (acc, cur) in
  Forall (fun x => Q x /\ (B x \/ (H x /\ F)))
         (if Stream.truthy (snd r) then fst r ++ [snd r] else fst r).
Proof.
  assert (Hflush : forall acc cur,
            Forall (fun x => Q x /\ (B x \/ (H x /\ F))) acc ->
            Q cur ->
            (B cur \/ (H cur /\ (Stream.truthy cur = true -> F))) ->
            Forall (fun x => Q x /\ (B x \/ (H x /\ F)))
                   (if Stream.truthy cur then acc ++ [cur] else acc)).
  { intros acc cur Hacc HQ HB.
    destruct (Stream.truthy cur) eqn:Ht; [|exact Hacc].
    apply Forall_app. split; [exact Hacc|]. constructor; [|constructor].
    split; [exact HQ|]. destruct HB as [HB|[HH HF]]; auto. }
  induction lines as [|l rest IH]; intros acc cur Hacc HQ HB; cbn zeta.
  - cbn [fold_left fst snd]. apply Hflush; try assumption.
    destruct HB as [HB|(HH & HF & _)]; auto.
  - cbn [fold_left]. destruct (marker l) eqn:Hm.
    + destruct (step_begins acc cur l Hm) as (cur' & -> & HQ' & HB').
      apply IH; [|exact HQ'|left; exact HB'].
      apply Hflush; try assumption.
      destruct HB as [HB|(HH & HF & _)]; auto.
    + destruct (step_keeps acc cur l Hm)
        as (cur' & -> & Ht & HQ' & HB' & HH').
      apply IH; [exact Hacc|exact (HQ' HQ)|].
      destruct HB as [HB|(HH & HF1 & HF2)]; [left; exact (HB' HB)|].
      right. split; [exact (HH' HH)|].
      cbn [field_before_marker] in HF2. rewrite Hm in HF2.
      destruct (Stream.truthy cur) eqn:Htc.
      * split; intros; apply HF1; reflexivity.
      * cbn [orb] in Ht. destruct (field l) eqn:Hf.
        -- split; intros; apply HF2; reflexivity.
        -- split; [rewrite Ht; discriminate|].
           intros _ Hrest. apply HF2; [reflexivity|exact Hrest].
Qed.

End Shape.

Lemma sink_step_begins : forall acc cur line,
  sink_marker line = true ->
  exists cur',
    sink_step_total (acc, cur) line
    = (if Stream.truthy cur then acc ++ [cur] else acc, cur')
    /\ True /\ begun "sink-input" cur'.
Proof.
  intros acc cur line Hm. unfold sink_marker in Hm.
  unfold sink_step_total. cbv zeta. rewrite Hm.
  eexists. split; [reflexivity|]. split; [exact I|].
  split; [reflexivity|]. cbn [Stream.id].
  destruct (search_hash_digits (strip line)) as [g|] eqn:Hg.
  - exists g. split; [reflexivity|].
    exact (proj2 (search_hash_digits_digits _ _ Hg)).
  - exists EmptyString. split; reflexivity.
Qed.

Lemma sink_step_keeps : forall acc cur line,
  sink_marker line = false ->
  exists cur',
    sink_step_total (acc, cur) line = (acc, cur')
    /\ Stream.truthy cur' = Stream.truthy cur || sink_field line
    /\ (True -> True)
    /\ (begun "sink-input" cur -> begun "sink-input" cur')
    /\ (headless cur -> headless cur').
Proof.
  intros acc cur line Hm.
  destruct (sink_step_other acc cur line Hm) as (cur' & Hs & Ht).
  exists cur'. split; [exact Hs|]. split; [exact Ht|]. split; [auto|].
  assert (Hid : Stream.id cur' = Stream.id cur
                /\ Stream.type cur' = Stream.type cur).
  { unfold sink_marker in Hm. unfold sink_step_total in Hs. cbv zeta in Hs.
    rewrite Hm in Hs.
    destruct (contains "application.name" (strip line)).
    - destruct (search_app_name (strip line)); injection Hs as <-;
        split; reflexivity.
    - destruct (startswith "Mute:" (strip line));
        [injection Hs as <-; split; reflexivity|].
      destruct (startswith "Volume:" (strip line));
        [|injection Hs as <-; split; reflexivity].
      destruct (search_digits_percent (strip line)); injection Hs as <-;
        split; reflexivity. }
  destruct Hid as [Hid Hty]. unfold begun, headless.
  rewrite Hid, Hty. auto.
Qed.

Lemma source_step_begins : forall acc cur line,
  source_marker line = true ->
  exists cur',
    source_step (acc, cur) line
    = (if Stream.truthy cur then acc ++ [cur] else acc, cur')
    /\ Stream.volume cur' = None /\ begun "source-output" cur'.
Proof.
  intros acc cur line Hm. unfold source_marker in Hm.
  unfold source_step. cbv zeta. rewrite Hm.
  eexists. split; [reflexivity|]. split; [reflexivity|].
  split; [reflexivity|]. cbn [Stream.id].
  destruct (search_hash_digits (strip line)) as [g|] eqn:Hg.
  - exists g. split; [reflexivity|].
    exact (proj2 (search_hash_digits_digits _ _ Hg)).
  - exists EmptyString. split; reflexivity.
Qed.

Lemma source_step_keeps : forall acc cur line,
  source_marker line = false ->
  exists cur',
    source_step (acc, cur) line = (acc, cur')
    /\ Stream.truthy cur' = Stream.truthy cur || source_field line
    /\ (Stream.volume cur = None -> Stream.volume cur' = None)
    /\ (begun "source-output" cur -> begun "source-output" cur')
    /\ (headless cur -> headless cur').
Proof.
  intros acc cur line Hm.
  destruct (source_step_other acc cur line Hm) as (cur' & Hs & Ht).
  exists cur'. split; [exact Hs|]. split; [exact Ht|].
  assert (Hid : Stream.id cur' = Stream.id cur
                /\ Stream.type cur' = Stream.type cur
                /\ Stream.volume cur' = Stream.volume cur).
  { unfold source_marker in Hm. unfold source_step in Hs. cbv zeta in Hs.
    rewrite Hm in Hs.
    destruct (contains "application.name" (strip line)).
    - destruct (search_app_name (strip line)); injection Hs as <-;
        repeat split; reflexivity.
    - destruct (startswith "Mute:" (strip line)); injection Hs as <-;
        repeat split; reflexivity. }
  destruct Hid as (Hid & Hty & Hvol). unfold begun, headless.
  rewrite Hid, Hty, Hvol. auto.
Qed.

(** The shape of the records of the playback listing. *)
Lemma parse_sink_inputs_shape : forall output,
  Forall (fun r =>
            begun "sink-input" r
            \/ (headless r
                /\ field_before_marker sink_marker sink_field
                     (split_lines output) = true))
         (parse_sink_inputs_total (Some output)).
Proof.
  intros output. unfold parse_sink_inputs_total.
  destruct (negb (PyStr.truthy output)); [constructor|].
  pose proof (fold_shape sink_step_total sink_marker sink_field
                (fun _ => True) (begun "sink-input") headless
                (field_before_marker sink_marker sink_field
                   (split_lines output) = true)
                sink_step_begins sink_step_keeps
                (split_lines output) [] Stream.empty) as Hs.
  cbn zeta in Hs.
  destruct (fold_left sink_step_total (split_lines output) ([], Stream.empty))
    as [sinks cur].
  cbn [fst snd] in Hs. eapply Forall_impl; [|apply Hs].
  - intros r [_ Hr]. exact Hr.
  - constructor.
  - exact I.
  - right. split; [split; reflexivity|]. split; [discriminate|auto].
Qed.

(** The shape of the records of the recording listing. *)
Lemma parse_source_outputs_shape : forall output,
  Forall (fun r =>
            Stream.volume r = None
            /\ (begun "source-output" r
                \/ (headless r
                    /\ field_before_marker source_marker source_field
                         (split_lines output) = true)))
         (parse_source_outputs (Some output)).
Proof.
  intros output. unfold parse_source_outputs.
  destruct (negb (PyStr.truthy output)); [constructor|].
  pose proof (fold_shape source_step source_marker source_field
                (fun r => Stream.volume r = None)
                (begun "source-output") headless
                (field_before_marker source_marker source_field
                   (split_lines output) = true)
                source_step_begins source_step_keeps
                (split_lines output) [] Stream.empty) as Hs.
  cbn zeta in Hs.
  destruct (fold_left source_step (split_lines output) ([], Stream.empty))
    as [sources cur].
  cbn [fst snd] in Hs. apply Hs.
  - constructor.
  - reflexivity.
  - right. split; [split; reflexivity|]. split; [discriminate|auto].
Qed.

Lemma begun_id_digits : forall ty r i,
  begun ty r -> Stream.id r = Some i -> all_digits i = true.
Proof.
  intros ty r i (_ & d & Hd & Hdig) Hi. congruence.
Qed.

Lemma has_id_and_type_id : forall s,
  has_id_and_type s = true ->
  exists i, Stream.id s = Some i /\ i <> EmptyString.
Proof.
  intros s. unfold has_id_and_type.
  destruct (Stream.id s) as [i|]; [|discriminate].
  destruct (Stream.type s); [|discriminate].
  destruct i; [discriminate|]. intros _. eexists. split; [reflexivity|].
  discriminate.
Qed.

(** The ids of both inventories are made of digits. *)
Lemma inventory_ids : forall o1 o2 r i,
  In r (parse_sink_inputs_total o1 ++ parse_source_outputs o2) ->
  Stream.id r = Some i -> all_digits i = true.
Proof.
  intros o1 o2 r i Hin Hi. apply in_app_or in Hin. destruct Hin as [Hin|Hin].
  - destruct o1 as [out|]; [|destruct Hin].
    pose proof (parse_sink_inputs_shape out) as Hs.
    rewrite Forall_forall in Hs. destruct (Hs r Hin) as [Hb|[[Hn _] _]].
    + exact (begun_id_digits _ r i Hb Hi).
    + congruence.
  - destruct o2 as [out|]; [|destruct Hin].
    pose proof (parse_source_outputs_shape out) as Hs.
    rewrite Forall_forall in Hs. destruct (Hs r Hin) as [_ [Hb|[[Hn _] _]]].
    + exact (begun_id_digits _ r i Hb Hi).
    + congruence.
Qed.

Lemma spec_selected_name : forall s,
  spec_selected s = true ->
  exists n, Stream.app_name s = Some n /\ n <> "Unknown".
Proof.
  intros s. unfold spec_selected.
  destruct (Stream.app_name s) as [n|]; [|discriminate].
  intros H. exists n. split; [reflexivity|]. intros ->. discriminate H.
Qed.

Lemma attempts_count : forall t a l es rs,
  Forall3 (attempt t a) l es rs ->
  succeeded rs = length (filter (fun e => exited_zero (snd e)) es)
  /\ Forall (fun e => mute_set_with t (fst e)) es
  /\ Forall2 (fun s r => StreamResult.app_name r
                         = get (Stream.app_name s) "Unknown") l rs.
Proof.
  induction 1 as [|s e r l es rs Hr _ IH]; [repeat split; constructor|].
  destruct IH as (IH1 & IH2 & IH3).
  destruct Hr as (i & Hi & Hty & Hid & Hname & Hsucc & Hact).
  unfold succeeded in *. cbn [filter]. rewrite Hsucc.
  split; [|split].
  - destruct (exited_zero (snd e)); cbn [length]; congruence.
  - constructor; [|exact IH2].
    destruct Hty as [(_ & -> & _)|(_ & -> & _)]; do 2 eexists;
      (split; [|reflexivity]); auto.
  - constructor; assumption.
Qed.

Section Operations.

Context {World : Type}.
Variable pactl : list string -> World -> process * World.

(** An operation, from the selection and the loop. *)
Lemma perform_cases : forall op st,
  perform pactl op st
  = match _find_discord_streams pactl st with
    | (Val [], st1) => (Val no_streams, st1)
    | (Val (x :: l), st1) =>
        let streams := x :: l in
        let action := label (target op streams) in
        match mute_loop pactl (state_argument (target op streams)) action
                        streams [] 0 st1 with
        | (Val r, st2) => (Val (summary action streams (fst r) (snd r)), st2)
        | (Raise e, st2) => (Raise e, st2)
        end
    | (Raise e, st1) => (Raise e, st1)
    end.
Proof.
  intros [mute|] st; cbn [perform]; unfold set_mute, toggle_mute, bind at 1;
    destruct (_find_discord_streams pactl st) as [[[|x l]|e] st1];
    try reflexivity.
  cbn [target]. destruct (get (Stream.muted x) false); reflexivity.
Qed.

Lemma find_discord_streams_trace : forall st,
  exists es,
    trace (snd (_find_discord_streams pactl st)) = trace st ++ es
    /\ Forall (fun e => fst e = list_sink_inputs
                        \/ fst e = list_source_outputs) es.
Proof.
  intros st. rewrite find_discord_streams_cases. cbn zeta. unfold called.
  cbn [world trace].
  assert (Hone : forall p : process,
            exists es,
              trace st ++ [(list_sink_inputs, p)] = trace st ++ es
              /\ Forall (fun e => fst e = list_sink_inputs
                                  \/ fst e = list_source_outputs) es).
  { intros p. eexists [_]. split; [reflexivity|].
    constructor; [left; reflexivity|constructor]. }
  destruct (fst (pactl list_sink_inputs (world st))) as [rc1 out1|rc1|e1];
    [|apply Hone|apply Hone].
  destruct (parse_sink_inputs (if Z.eqb rc1 0 then Some out1 else None))
    as [sinks|e]; [|apply Hone].
  destruct (fst (pactl list_source_outputs _)) as [rc2 out2|rc2|e2];
    eexists [_; _]; cbn [snd trace]; rewrite <- app_assoc;
    (split; [reflexivity|]);
    (constructor; [left; reflexivity|]);
    (constructor; [right; reflexivity|constructor]).
Qed.

Lemma find_discord_streams_selected : forall st streams st1,
  _find_discord_streams pactl st = (Val streams, st1) ->
  Forall (fun s => spec_selected s = true
                   /\ forall i, Stream.id s = Some i -> all_digits i = true)
         streams.
Proof.
  intros st streams st1 H. rewrite find_discord_streams_cases in H.
  cbn zeta in H.
  destruct (fst (pactl list_sink_inputs (world st))) as [rc1 out1|rc1|e1];
    try discriminate.
  destruct (parse_sink_inputs (if Z.eqb rc1 0 then Some out1 else None))
    as [sinks|e] eqn:Hparse; [|discriminate].
  apply parse_sink_inputs_val in Hparse. subst sinks.
  destruct (fst (pactl list_source_outputs _)) as [rc2 out2|rc2|e2];
    try discriminate.
  injection H as <- _. apply Forall_forall. intros s Hin.
  apply filter_In in Hin. destruct Hin as [Hin Hsel]. split; [exact Hsel|].
  intros i Hi. exact (inventory_ids _ _ s i Hin Hi).
Qed.

Lemma mute_loop_clean : forall t a streams rs c st,
  (t = "0" \/ t = "1") ->
  Forall (fun s => forall i, Stream.id s = Some i -> all_digits i = true)
         streams ->
  exists es,
    trace (snd (mute_loop pactl t a streams rs c st)) = trace st ++ es
    /\ Forall (fun e => clean_mute_command (fst e)) es.
Proof.
  intros t a streams rs c st Ht. revert rs c st.
  induction streams as [|s rest IH]; intros rs c st Hall.
  - exists []. cbn. rewrite app_nil_r. auto.
  - inversion Hall as [|? ? Hs Hrest]. subst.
    destruct (has_id_and_type s) eqn:Hhas.
    + destruct (mute_loop_run pactl t a s rest Hhas)
        as (i & variant & desc & Hi & Hty & Hrun).
      destruct (has_id_and_type_id s Hhas) as (i' & Hi' & Hne).
      assert (i' = i) by congruence. subst i'.
      assert (Hclean : clean_mute_command ["pactl"; variant; i; t]).
      { exists variant, i, t. split; [reflexivity|].
        split; [destruct Hty as [(_ & -> & _)|(_ & -> & _)]; auto|].
        split; [exact Hne|]. split; [exact (Hs i Hi)|exact Ht]. }
      rewrite Hrun. cbn zeta.
      destruct (fst (pactl ["pactl"; variant; i; t] (world st)))
        as [rc out|rc|e] eqn:Hp.
      * destruct (IH (rs ++ [StreamResult.mk i desc
                               (get (Stream.app_name s) "Unknown")
                               (Z.eqb rc 0) a])
                    (if Z.eqb rc 0 then c + 1 else c)
                    (called pactl ["pactl"; variant; i; t] st) Hrest)
          as (es & Htr & HF).
        eexists (_ :: es). split.
        { rewrite Htr. unfold called. cbn [trace]. rewrite <- app_assoc.
          reflexivity. }
        constructor; [exact Hclean|exact HF].
      * eexists [_]. cbn [snd]. unfold called. cbn [trace].
        split; [reflexivity|]. constructor; [exact Hclean|constructor].
      * eexists [_]. cbn [snd]. unfold called. cbn [trace].
        split; [reflexivity|]. constructor; [exact Hclean|constructor].
    + rewrite (mute_loop_skip pactl t a s rest rs c Hhas).
      apply IH. exact Hrest.
Qed.

(** X3.  Whatever text of the model the tool prints (code points below
    256), and however the operation ends, [set_mute] and [toggle_mute]
    invoke nothing but the two listings and per-stream mute-set commands
    whose state argument is 0 or 1 and whose id is a non-empty run of
    characters of the class [\d], the group the marker pattern captured:
    no other text of the listing reaches a command line. *)
Theorem commands_are_clean : forall op st,
  exists es,
    trace (snd (perform pactl op st)) = trace st ++ es
    /\ Forall (fun e => fst e = list_sink_inputs
                        \/ fst e = list_source_outputs
                        \/ clean_mute_command (fst e)) es.
Proof.
  intros op st. rewrite perform_cases.
  destruct (find_discord_streams_trace st) as (es0 & Htr0 & HF0).
  assert (HF0' : Forall (fun e => fst e = list_sink_inputs
                                  \/ fst e = list_source_outputs
                                  \/ clean_mute_command (fst e)) es0).
  { eapply Forall_impl; [|exact HF0]. intros e [He|He]; auto. }
  destruct (_find_discord_streams pactl st) as [[[|x l]|e] st1] eqn:Hsel;
    cbn [snd] in Htr0.
  - exists es0. auto.
  - cbn zeta.
    assert (Harg : state_argument (target op (x :: l)) = "0"
                   \/ state_argument (target op (x :: l)) = "1")
      by (destruct (target op (x :: l)); cbn; auto).
    pose proof (find_discord_streams_selected st _ st1 Hsel) as Hall.
    assert (Hids : Forall (fun s => forall i, Stream.id s = Some i ->
                                     all_digits i = true) (x :: l)).
    { eapply Forall_impl; [|exact Hall]. intros s [_ Hs]. exact Hs. }
    destruct (mute_loop_clean (state_argument (target op (x :: l)))
                (label (target op (x :: l))) (x :: l) [] 0 st1 Harg Hids)
      as (es & Htr & HF).
    exists (es0 ++ es). split.
    + destruct (mute_loop pactl _ _ (x :: l) [] 0 st1) as [[r|e] st2];
        cbn [snd] in *; rewrite Htr, Htr0, app_assoc; reflexivity.
    + apply Forall_app. split; [exact HF0'|].
      eapply Forall_impl; [|exact HF]. intros e He. auto.
  - exists es0. auto.
Qed.

(** X4.  For every summary returned, [streams_affected] is the number of
    mute-set invocations that exited with return code zero, and [success]
    is true iff one of them did; the invocations made after the selection
    are mute-set commands with the state argument of the target, and all
    of them exited. *)
Theorem affected_counts_zero_exits : forall op st streams st1 s st2,
  _find_discord_streams pactl st = (Val streams, st1) ->
  perform pactl op st = (Val s, st2) ->
  exists es,
    trace st2 = trace st1 ++ es
    /\ Forall exited es
    /\ Forall (fun e => mute_set_with (state_argument (target op streams))
                                      (fst e)) es
    /\ Summary.streams_affected s
       = length (filter (fun e => exited_zero (snd e)) es)
    /\ (Summary.success s = true
        <-> Exists (fun e => exited_zero (snd e) = true) es).
Proof.
  intros op st streams st1 s st2 Hsel H. rewrite perform_cases, Hsel in H.
  destruct streams as [|x l].
  - injection H as <- <-. exists []. rewrite app_nil_r.
    repeat split; try constructor; try discriminate.
    intros HE. inversion HE.
  - cbn zeta in H.
    destruct (disciplined_mute_loop pactl
                (state_argument (target op (x :: l)))
                (label (target op (x :: l))) (x :: l) [] 0 st1)
      as (es' & Htr' & Hex).
    destruct (mute_loop pactl _ _ (x :: l) [] 0 st1)
      as [[[rs c]|e] st'] eqn:Hloop; [|discriminate].
    injection H as <- <-. cbn [fst snd] in Htr', Hex.
    destruct (mute_loop_val pactl _ _ _ _ _ _ _ _ _ Hloop)
      as (es & new & HF & Htr & -> & ->).
    assert (es' = es) by (apply (app_inv_head (trace st1)); congruence).
    subst es'. destruct (attempts_count _ _ _ _ _ HF) as (Hcount & Hcmd & _).
    exists es. cbn [app Nat.add fst snd summary Summary.streams_affected
                    Summary.success].
    split; [exact Htr|]. split; [exact Hex|]. split; [exact Hcmd|].
    split; [exact Hcount|]. rewrite Hcount, Nat.ltb_lt.
    clear. induction es as [|e es IH]; cbn [filter length].
    + split; [lia|]. intros HE. inversion HE.
    + destruct (exited_zero (snd e)) eqn:He; cbn [length].
      * split; [intros _; left; exact He|lia].
      * rewrite IH. split; [intros HE; right; exact HE|].
        intros HE. inversion HE; [congruence|assumption].
Qed.

(** X5.  The default application name Unknown is never shown: every
    display record of [get_status] and every result of [set_mute] and
    [toggle_mute] carries the application name read from the listing,
    which is not Unknown. *)
Theorem default_name_never_shown : forall st,
  (forall r st', get_status pactl st = (Val r, st') ->
     Forall (fun i => StreamInfo.app_name i <> "Unknown"
                      /\ exists p, In p spec_patterns
                           /\ contains p (lower (StreamInfo.app_name i)) = true)
            (Status.streams r))
  /\ (forall op s st' rs,
        perform pactl op st = (Val s, st') ->
        Summary.results s = Some rs ->
        Forall (fun r => StreamResult.app_name r <> "Unknown") rs).
Proof.
  intros st. split.
  - intros r st' H. unfold get_status, bind in H.
    destruct (_find_discord_streams pactl st) as [[streams|e] st1] eqn:Hsel;
      [|discriminate].
    pose proof (find_discord_streams_selected st _ st1 Hsel) as Hall.
    assert (Hs : Status.streams r = map stream_info streams).
    { destruct streams; injection H as <- _; reflexivity. }
    rewrite Hs. clear - Hall. induction Hall as [|s l [Hsel _] _ IH];
      cbn [map]; constructor; [|exact IH].
    destruct (spec_selected_name s Hsel) as (n & Hn & Hne).
    unfold stream_info. cbn [StreamInfo.app_name]. rewrite Hn. cbn [get].
    split; [exact Hne|]. unfold spec_selected in Hsel. rewrite Hn in Hsel.
    apply existsb_exists in Hsel. exact Hsel.
  - intros op s st' rs H Hres. rewrite perform_cases in H.
    destruct (_find_discord_streams pactl st) as [[[|x l]|e] st1] eqn:Hsel;
      [injection H as <- _; discriminate| |discriminate].
    cbn zeta in H.
    destruct (mute_loop pactl _ _ (x :: l) [] 0 st1)
      as [[[rs' c]|e] st2] eqn:Hloop; [|discriminate].
    injection H as <- _. injection Hres as <-.
    destruct (mute_loop_val pactl _ _ _ _ _ _ _ _ _ Hloop)
      as (es & new & HF & _ & -> & _).
    destruct (attempts_count _ _ _ _ _ HF) as (_ & _ & Hnames).
    pose proof (find_discord_streams_selected st _ st1 Hsel) as Hall.
    assert (Hsub : Forall (fun s => spec_selected s = true)
                          (filter has_id_and_type (x :: l))).
    { apply Forall_forall. intros s Hin. apply filter_In in Hin.
      rewrite Forall_forall in Hall. exact (proj1 (Hall s (proj1 Hin))). }
    cbn [app fst]. clear - Hnames Hsub.
    induction Hnames as [|s r ss rr Hr _ IH]; constructor.
    + inversion Hsub as [|? ? Hs _]. subst.
      destruct (spec_selected_name s Hs) as (n & Hn & Hne).
      rewrite Hr, Hn. exact Hne.
    + apply IH. inversion Hsub. assumption.
Qed.

End Operations.

(** ** Further properties: the listings and the selection *)

Lemma startswith_spec : forall p s,
  startswith p s = true <-> exists r, s = (p ++ r)%string.
Proof.
  induction p as [|a p IH]; intros s; cbn [startswith].
  - split; [intros _; exists s; reflexivity|reflexivity].
  - destruct s as [|b s].
    + split; [discriminate|]. intros (r & Hr). discriminate.
    + rewrite andb_true_iff, Ascii.eqb_eq, IH. split.
      * intros (-> & r & ->). exists r. reflexivity.
      * intros (r & Hr). cbn in Hr. injection Hr as -> ->.
        split; [reflexivity|]. exists r. reflexivity.
Qed.

(** [p in s] holds exactly when [s] is some text, [p], and some text. *)
Lemma contains_spec : forall p s,
  contains p s = true <-> exists a b, s = (a ++ p ++ b)%string.
Proof.
  intros p s. split.
  - induction s as [|c s IH]; cbn [contains]; rewrite orb_true_iff.
    + intros [H|H]; [|discriminate]. apply startswith_spec in H.
      destruct H as (r & ->). exists EmptyString, r. reflexivity.
    + intros [H|H].
      * apply startswith_spec in H. destruct H as (r & ->).
        exists EmptyString, r. reflexivity.
      * destruct (IH H) as (a & b & ->). exists (String c a), b. reflexivity.
  - intros (a & b & ->). induction a as [|c a IH].
    + cbn [String.append].
      assert (H : startswith p (p ++ b) = true)
        by (apply startswith_spec; exists b; reflexivity).
      destruct (p ++ b)%string; cbn [contains]; rewrite H; reflexivity.
    + cbn [String.append contains]. rewrite IH. apply orb_true_r.
Qed.

Section Listings.

Context {World : Type}.
Variable pactl : list string -> World -> process * World.



(** X8.  A stream is selected exactly when it is in one of the two
    inventories, has an application name, and the name in lower case
    can be cut into some text, one of the five patterns in lower case, and
    some text. *)
Theorem selection_is_substring_match : forall st sinks st1 sources st2,
  _get_sink_inputs pactl st = (Val sinks, st1) ->
  _get_source_outputs pactl st1 = (Val sources, st2) ->
  exists streams,
    _find_discord_streams pactl st = (Val streams, st2)
    /\ forall s,
         In s streams
         <-> (In s (sinks ++ sources)
              /\ exists name pattern a b,
                   Stream.app_name s = Some name
                   /\ In pattern discord_patterns
                   /\ lower name = (a ++ lower pattern ++ b)%string).
Proof.
  intros st sinks st1 sources st2 H1 H2.
  eexists. split.
  { unfold _find_discord_streams, bind. rewrite H1, H2. unfold ret.
    rewrite select_discord_filter. cbn [app]. reflexivity. }
  intros s. rewrite filter_In. split.
  - intros [Hin Hsel]. split; [exact Hin|].
    pose proof Hsel as Hspec. rewrite code_patterns_spec in Hspec.
    destruct (spec_selected_name s Hspec) as (name & Hname & _).
    rewrite Hname in Hsel. cbn [get] in Hsel.
    rewrite any_pattern_in_existsb in Hsel. apply existsb_exists in Hsel.
    destruct Hsel as (pattern & Hp & Hc). apply contains_spec in Hc.
    destruct Hc as (a & b & Hab). exists name, pattern, a, b. auto.
  - intros [Hin (name & pattern & a & b & Hname & Hp & Hab)].
    split; [exact Hin|]. rewrite Hname. cbn [get].
    rewrite any_pattern_in_existsb. apply existsb_exists.
    exists pattern. split; [exact Hp|]. apply contains_spec.
    exists a, b. exact Hab.
Qed.

End Listings.

(** ** Further properties: the routes of the server *)

Lemma not_all_exited : forall es (command : list string) p,
  (forall rc out, p <> Exited rc out) ->
  ~ Forall exited (es ++ [(command, p)]).
Proof.
  intros es command p Hp HF. apply Forall_app in HF. destruct HF as [_ HF].
  inversion HF as [|? ? (rc & out & Hx) _]. exact (Hp rc out Hx).
Qed.

Lemma exists_zero_count : forall es : list (list string * process),
  Exists (fun e => exited_zero (snd e) = true) es
  <-> 0 < length (filter (fun e => exited_zero (snd e)) es).
Proof.
  induction es as [|e es IH]; cbn [filter length].
  - split; [intros HE; inversion HE|lia].
  - destruct (exited_zero (snd e)) eqn:He; cbn [length].
    + split; [lia|]. intros _. left. exact He.
    + rewrite <- IH. split; [|intros HE; right; exact HE].
      intros HE. inversion HE; [congruence|assumption].
Qed.

Section Server.

Context {World : Type}.
Variable pactl : list string -> World -> process * World.
Variable str : exn -> string.

Lemma get_status_disciplined : disciplined (get_status pactl).
Proof.
  unfold get_status. apply disciplined_bind;
    [apply disciplined_find_discord_streams|].
  intros [|x l]; apply disciplined_ret.
Qed.

Lemma perform_disciplined : forall op, disciplined (perform pactl op).
Proof.
  intros [mute|]; cbn [perform]; unfold set_mute, toggle_mute;
    (apply disciplined_bind; [apply disciplined_find_discord_streams|]);
    (intros [|x l]; [apply disciplined_ret|]);
    (apply disciplined_bind; [apply disciplined_mute_loop|]);
    intros r; apply disciplined_ret.
Qed.

Lemma serve_cases : forall r st,
  serve pactl str r st
  = match perform pactl (route_operation r) st with
    | (Val result, st') =>
        (mkResponse (SummaryJson result)
                    (if Summary.success result then 200 else 404), st')
    | (Raise e, st') =>
        (mkResponse (ErrorJson false (route_error r ++ str e)) 500, st')
    end.
Proof. intros [| |] st; reflexivity. Qed.

(** When the loop over the streams raises, the last invocation it made did
    not exit, and the earlier ones did. *)
Lemma mute_loop_raise : forall t a streams rs c st e st',
  mute_loop pactl t a streams rs c st = (Raise e, st') ->
  exists es command p,
    trace st' = trace st ++ es ++ [(command, p)]
    /\ Forall exited es
    /\ (forall rc out, p <> Exited rc out).
Proof.
  intros t a streams. induction streams as [|s rest IH];
    intros rs c st e st' H; [discriminate|].
  destruct (has_id_and_type s) eqn:Hs.
  - destruct (mute_loop_run pactl t a s rest Hs)
      as (i & variant & desc & _ & _ & Hrun).
    rewrite Hrun in H. cbn zeta in H.
    destruct (fst (pactl ["pactl"; variant; i; t] (world st)))
      as [rc out|rc|oe] eqn:Hp.
    + apply IH in H. destruct H as (es & command & p & Htr & Hex & Hne).
      exists ((["pactl"; variant; i; t], Exited rc out) :: es), command, p.
      split; [|split; [|exact Hne]].
      * rewrite Htr. unfold called. cbn [trace]. rewrite Hp.
        rewrite <- app_assoc. reflexivity.
      * constructor; [exists rc, out; reflexivity|exact Hex].
    + injection H as _ <-. eexists [], _, _. unfold called. cbn [trace app].
      rewrite Hp. split; [reflexivity|]. split; [constructor|discriminate].
    + injection H as _ <-. eexists [], _, _. unfold called. cbn [trace app].
      rewrite Hp. split; [reflexivity|]. split; [constructor|discriminate].
  - rewrite (mute_loop_skip pactl t a s rest rs c Hs) in H.
    exact (IH _ _ _ _ _ H).
Qed.

(** [ValueError] comes from the playback listing, and only from it. *)
Lemma find_discord_streams_overlong : forall st,
  overlong_volume pactl st ->
  exists st1, _find_discord_streams pactl st = (Raise ValueError, st1).
Proof.
  intros st (out & Hp & Hlong). rewrite find_discord_streams_cases.
  cbn zeta. rewrite Hp. cbn [Z.eqb].
  rewrite parse_sink_inputs_cases, Hlong. eexists. reflexivity.
Qed.

Lemma find_discord_streams_value_error : forall st st1,
  _find_discord_streams pactl st = (Raise ValueError, st1) ->
  overlong_volume pactl st.
Proof.
  intros st st1 H. rewrite find_discord_streams_cases in H. cbn zeta in H.
  destruct (fst (pactl list_sink_inputs (world st)))
    as [rc1 out1|rc1|e1] eqn:Hp; try discriminate.
  destruct (Z.eqb_spec rc1 0) as [->|Hne].
  - rewrite parse_sink_inputs_cases in H.
    destruct (existsb sink_overlong (split_lines out1)) eqn:Hlong.
    + exists out1. auto.
    + destruct (fst (pactl list_source_outputs _)); discriminate.
  - cbn [parse_sink_inputs] in H.
    destruct (fst (pactl list_source_outputs _)); discriminate.
Qed.

Lemma mute_loop_no_value_error : forall t a streams rs c st st',
  mute_loop pactl t a streams rs c st <> (Raise ValueError, st').
Proof.
  intros t a streams rs c st st' H.
  destruct (disciplined_mute_loop pactl t a streams rs c st)
    as (es & Htr & Hd).
  rewrite H in Htr, Hd. cbn [fst snd raised_by] in Htr, Hd.
  destruct (mute_loop_raise _ _ _ _ _ _ _ _ H)
    as (es' & command & p & Htr' & _ & Hp).
  assert (Hes : es = es' ++ [(command, p)])
    by (apply (app_inv_head (trace st)); congruence).
  rewrite Hes in Hd. exact (not_all_exited es' command p Hp Hd).
Qed.

Lemma perform_value_error : forall op st st',
  perform pactl op st = (Raise ValueError, st') -> overlong_volume pactl st.
Proof.
  intros op st st' H. rewrite perform_cases in H.
  destruct (_find_discord_streams pactl st) as [[[|x l]|e] st1] eqn:Hsel.
  - discriminate.
  - cbn zeta in H.
    destruct (mute_loop pactl _ _ (x :: l) [] 0 st1) as [[res|e] st2] eqn:Hloop;
      [discriminate|].
    injection H as -> ->. exfalso.
    exact (mute_loop_no_value_error _ _ _ _ _ _ _ Hloop).
  - injection H as -> ->. exact (find_discord_streams_value_error st st' Hsel).
Qed.

Lemma perform_overlong : forall op st,
  overlong_volume pactl st ->
  exists st', perform pactl op st = (Raise ValueError, st').
Proof.
  intros op st H. rewrite perform_cases.
  destruct (find_discord_streams_overlong st H) as (st1 & ->).
  eexists. reflexivity.
Qed.

Lemma get_status_value_error : forall st st',
  get_status pactl st = (Raise ValueError, st') -> overlong_volume pactl st.
Proof.
  intros st st' H. unfold get_status, bind in H.
  destruct (_find_discord_streams pactl st) as [[[|x l]|e] st1] eqn:Hsel;
    try discriminate.
  injection H as -> ->. exact (find_discord_streams_value_error st st' Hsel).
Qed.

Lemma get_status_overlong : forall st,
  overlong_volume pactl st ->
  exists st', get_status pactl st = (Raise ValueError, st').
Proof.
  intros st H. unfold get_status, bind.
  destruct (find_discord_streams_overlong st H) as (st1 & ->).
  eexists. reflexivity.
Qed.

(** What [raised_by] says of the invocations made when the exception is
    no [ValueError]: the last one did not exit. *)
Lemma raised_by_not_exited : forall e es,
  raised_by e es -> e <> ValueError -> ~ Forall exited es.
Proof.
  intros [rc|oe| |] es H Hne; cbn [raised_by] in H.
  - destruct H.
  - destruct H as (es' & command & -> & _).
    apply not_all_exited. discriminate.
  - destruct H as (es' & command & rc & -> & _).
    apply not_all_exited. discriminate.
  - congruence.
Qed.

(** X9.  Once the selection is made, the status code of the routes
    [/toggle], [/mute] and [/unmute] is decided by the mute-set
    invocations of the request: 500 when one of them did not exit with
    its text, as when it could not be started (even if earlier ones muted
    their streams), otherwise 200
    when one of them exited with return code zero, otherwise 404, which
    is the answer when no stream is selected. *)
Theorem mute_route_status_code : forall r st streams st1,
  _find_discord_streams pactl st = (Val streams, st1) ->
  exists es,
    trace (snd (serve pactl str r st)) = trace st1 ++ es
    /\ (status_code (fst (serve pactl str r st)) = 200
        <-> Forall exited es
            /\ Exists (fun e => exited_zero (snd e) = true) es)
    /\ (status_code (fst (serve pactl str r st)) = 404
        <-> Forall exited es
            /\ ~ Exists (fun e => exited_zero (snd e) = true) es)
    /\ (status_code (fst (serve pactl str r st)) = 500
        <-> ~ Forall exited es)
    /\ (streams = [] -> status_code (fst (serve pactl str r st)) = 404).
Proof.
  intros r st streams st1 Hsel. rewrite serve_cases, perform_cases, Hsel.
  destruct streams as [|x l].
  - exists []. cbn [fst snd status_code Summary.success no_streams].
    rewrite app_nil_r. split; [reflexivity|].
    split; [split; [discriminate|intros [_ HE]; inversion HE]|].
    split; [split; [intros _; split; [constructor|intros HE; inversion HE]
                   |reflexivity]|].
    split; [split; [discriminate|intros HF; destruct HF; constructor]|].
    reflexivity.
  - cbn zeta.
    destruct (disciplined_mute_loop pactl
                (state_argument (target (route_operation r) (x :: l)))
                (label (target (route_operation r) (x :: l)))
                (x :: l) [] 0 st1) as (es & Htr & Hex).
    destruct (mute_loop pactl _ _ (x :: l) [] 0 st1)
      as [[[rs c]|e] st2] eqn:Hloop; cbn [fst snd] in Htr, Hex.
    + destruct (mute_loop_val pactl _ _ _ _ _ _ _ _ _ Hloop)
        as (es' & new & HF & Htr' & _ & ->).
      assert (es' = es) by (apply (app_inv_head (trace st1)); congruence).
      subst es'. destruct (attempts_count _ _ _ _ _ HF) as (Hcount & _ & _).
      exists es.
      cbn [fst snd status_code summary Summary.success Nat.add].
      split; [exact Htr|]. rewrite exists_zero_count, <- Hcount.
      destruct (Nat.ltb_spec 0 (succeeded new)) as [Hpos|Hzero].
      * split; [split; [auto|reflexivity]|].
        split; [split; [discriminate|intros [_ Hn]; contradiction]|].
        split; [split; [discriminate|intros Hn; contradiction]|].
        discriminate.
      * split; [split; [discriminate|intros [_ Hn]; lia]|].
        split; [split; [intros _; split; [exact Hex|lia]|reflexivity]|].
        split; [split; [discriminate|intros Hn; contradiction]|].
        discriminate.
    + clear es Htr Hex.
      destruct (mute_loop_raise _ _ _ _ _ _ _ _ Hloop)
        as (es & command & p & Htr & Hex & Hp).
      exists (es ++ [(command, p)]).
      cbn [fst snd status_code]. split; [exact Htr|].
      pose proof (not_all_exited es command p Hp) as Hn.
      split; [split; [discriminate|intros [HF _]; contradiction]|].
      split; [split; [discriminate|intros [HF _]; contradiction]|].
      split; [split; [intros _; exact Hn|reflexivity]|].
      discriminate.
Qed.

(** X10.  The route [/status] answers in one of two ways: 200 with the
    result of [get_status], whose success is true, or 500 with success
    false and the message Error getting status: followed by the text of
    the exception [get_status] raised, which is never a
    [CalledProcessError].  It answers 500 exactly when an invocation it
    made did not exit with its text (it could not be started, or its
    output could not be decoded) or the playback listing has a volume
    line on which [int] raises.  It never answers 404. *)
Theorem status_route_answers : forall st,
  let resp := fst (Main.get_status pactl str st) in
  exists es,
    trace (snd (Main.get_status pactl str st)) = trace st ++ es
    /\ (status_code resp = 500
        <-> ~ Forall exited es \/ overlong_volume pactl st)
    /\ ((status_code resp = 200
         /\ exists r, body resp = StatusJson r
                      /\ Status.success r = true
                      /\ fst (get_status pactl st) = Val r)
        \/ (status_code resp = 500
            /\ exists e,
                 body resp
                 = ErrorJson false ("Error getting status: " ++ str e)
                 /\ fst (get_status pactl st) = Raise e
                 /\ (forall rc, e <> CalledProcessError rc)
                 /\ raised_by e es)).
Proof.
  intros st resp. subst resp.
  unfold Main.get_status, discord_controller.get_status.
  destruct (get_status_disciplined st) as (es & Htr & Hd).
  destruct (get_status pactl st) as [[r|e] st'] eqn:H; cbn [fst snd] in *;
    exists es; (split; [exact Htr|]); cbn [status_code body].
  - split.
    + split; [discriminate|]. intros [Hn|Hlong]; [contradiction|].
      destruct (get_status_overlong st Hlong) as (st2 & H2). congruence.
    + left. split; [reflexivity|]. exists r. split; [reflexivity|].
      split; [|reflexivity].
      unfold get_status, bind in H.
      destruct (_find_discord_streams pactl st) as [[[|x l]|e] st1];
        try discriminate; injection H as <- _; reflexivity.
  - split.
    + split; [|reflexivity]. intros _.
      destruct e as [rc|oe| |];
        try (left; apply (raised_by_not_exited _ _ Hd); discriminate).
      right. exact (get_status_value_error st st' H).
    + right. split; [reflexivity|]. exists e. split; [reflexivity|].
      split; [reflexivity|]. split; [|exact Hd].
      intros rc ->. exact Hd.
Qed.

(** X11.  With a tool that can always be started and whose output can
    always be decoded, and a playback listing without a volume percentage
    of more digits than [int] converts, no route answers 500: [/status]
    answers 200, and [/toggle], [/mute] and [/unmute] answer 200 or 404
    with the summary of the operation. *)
Theorem routes_with_a_working_tool : forall st,
  starts pactl ->
  (forall out, fst (pactl list_sink_inputs (world st)) = Exited 0 out ->
               existsb sink_overlong (split_lines out) = false) ->
  status_code (fst (Main.get_status pactl str st)) = 200
  /\ forall r,
       exists s,
         body (fst (serve pactl str r st)) = SummaryJson s
         /\ status_code (fst (serve pactl str r st))
            = if Nat.ltb 0 (Summary.streams_affected s) then 200 else 404.
Proof.
  intros st Hstarts Hlong.
  destruct (find_discord_streams_total pactl st Hstarts Hlong)
    as (streams & st1 & Hsel).
  split.
  - unfold Main.get_status, discord_controller.get_status, get_status, bind.
    rewrite Hsel. destruct streams; reflexivity.
  - intros r. rewrite serve_cases, perform_cases, Hsel.
    destruct streams as [|x l].
    + exists no_streams. split; reflexivity.
    + cbn zeta.
      destruct (mute_loop_total pactl
                  (state_argument (target (route_operation r) (x :: l)))
                  (label (target (route_operation r) (x :: l)))
                  (x :: l) [] 0 st1 Hstarts) as (res & st2 & ->).
      eexists. split; reflexivity.
Qed.

(** X12.  A route [/toggle], [/mute] or [/unmute] answers 500 exactly when
    its operation raised, which is exactly when an invocation it made did
    not exit with its text (it could not be started, or its output could
    not be decoded) or the playback listing has a volume line on which
    [int] raises.  The body then has success false and the message of the
    route followed by the text of the exception, which is never a
    [CalledProcessError]: an [OSError] or a [UnicodeDecodeError] of the
    last invocation made, or the [ValueError] of [int] after invocations
    that all exited. *)
Theorem mute_route_error : forall r st,
  exists es,
    trace (snd (serve pactl str r st)) = trace st ++ es
    /\ (status_code (fst (serve pactl str r st)) = 500
        <-> ~ Forall exited es \/ overlong_volume pactl st)
    /\ (status_code (fst (serve pactl str r st)) = 500
        <-> exists e, fst (perform pactl (route_operation r) st) = Raise e)
    /\ (forall e,
          fst (perform pactl (route_operation r) st) = Raise e ->
          body (fst (serve pactl str r st))
          = ErrorJson false (route_error r ++ str e)
          /\ (forall rc, e <> CalledProcessError rc)
          /\ raised_by e es).
Proof.
  intros r st. rewrite serve_cases.
  destruct (perform_disciplined (route_operation r) st) as (es & Htr & Hd).
  destruct (perform pactl (route_operation r) st) as [[s|e] st'] eqn:H;
    cbn [fst snd status_code body] in *;
    exists es; (split; [exact Htr|]).
  - assert (Hcode : (if Summary.success s then 200 else 404) <> 500)
      by (destruct (Summary.success s); discriminate).
    split; [|split].
    + split; [intros Hc; contradiction|]. intros [Hn|Hlong]; [contradiction|].
      destruct (perform_overlong (route_operation r) st Hlong) as (st2 & H2).
      congruence.
    + split; [intros Hc; contradiction|]. intros (e & He). discriminate.
    + discriminate.
  - split; [|split].
    + split; [|reflexivity]. intros _.
      destruct e as [rc|oe| |];
        try (left; apply (raised_by_not_exited _ _ Hd); discriminate).
      right. exact (perform_value_error _ st st' H).
    + split; [intros _; exists e|]; reflexivity.
    + intros e' [= <-]. split; [reflexivity|]. split; [|exact Hd].
      intros rc ->. exact Hd.
Qed.

End Server.

(** ** Further properties: the parser on the text pactl prints *)

Lemma isdigit_not_space : forall c, isdigit c = true -> isspace c = false.
Proof.
  intros [[] [] [] [] [] [] [] []] H; vm_compute in H; try discriminate H;
    vm_compute; reflexivity.
Qed.

Lemma without_app : forall c a b,
  without c (a ++ b) = without c a && without c b.
Proof.
  intros c a b. induction a as [|x a IH]; cbn [String.append without];
    [reflexivity|]. rewrite IH. apply andb_assoc.
Qed.

Lemma digits_without : forall c d,
  isdigit c = false -> all_digits d = true -> without c d = true.
Proof.
  intros c d Hc. induction d as [|x d IH]; cbn [all_digits without];
    [reflexivity|].
  rewrite andb_true_iff. intros [Hx Hd]. rewrite (IH Hd), andb_true_r.
  destruct (Ascii.eqb_spec x c) as [->|_]; [congruence|reflexivity].
Qed.

Lemma take_digits_app : forall d x r,
  all_digits d = true -> isdigit x = false ->
  take_digits (d ++ String x r) = d.
Proof.
  intros d x r Hd Hx. induction d as [|c d IH];
    cbn [String.append take_digits].
  - now rewrite Hx.
  - cbn [all_digits] in Hd. apply andb_true_iff in Hd. destruct Hd as [Hc Hd].
    now rewrite Hc, (IH Hd).
Qed.

Lemma take_digits_all : forall d, all_digits d = true -> take_digits d = d.
Proof.
  induction d as [|c d IH]; cbn [all_digits take_digits]; [reflexivity|].
  rewrite andb_true_iff. intros [Hc Hd]. now rewrite Hc, (IH Hd).
Qed.

Lemma drop_digits_app : forall d x r,
  all_digits d = true -> isdigit x = false ->
  drop_digits (d ++ String x r) = String x r.
Proof.
  intros d x r Hd Hx. induction d as [|c d IH];
    cbn [String.append drop_digits].
  - now rewrite Hx.
  - cbn [all_digits] in Hd. apply andb_true_iff in Hd. destruct Hd as [Hc Hd].
    now rewrite Hc, (IH Hd).
Qed.

Lemma rstrip_digits : forall d, all_digits d = true -> rstrip d = d.
Proof.
  induction d as [|c d IH]; cbn [all_digits rstrip]; [reflexivity|].
  rewrite andb_true_iff. intros [Hc Hd].
  now rewrite (IH Hd), (isdigit_not_space c Hc).
Qed.

(** [rstrip] keeps a text that ends with a text it keeps. *)
Lemma rstrip_app_keep : forall a b,
  rstrip b = b -> PyStr.truthy b = true -> rstrip (a ++ b) = (a ++ b)%string.
Proof.
  intros a b Hb Ht. induction a as [|c a IH]; cbn [String.append rstrip];
    [exact Hb|].
  rewrite IH.
  assert (Hne : PyStr.truthy (a ++ b) = true)
    by (destruct a; [exact Ht|reflexivity]).
  now rewrite Hne, andb_false_r.
Qed.

Lemma truthy_app_r : forall a b,
  PyStr.truthy b = true -> PyStr.truthy (a ++ b) = true.
Proof. intros [|c a] b H; [exact H|reflexivity]. Qed.

Lemma until_quote_app : forall name r,
  without dquote name = true ->
  until_quote (name ++ String dquote r) = Some name.
Proof.
  intros name r. induction name as [|c name IH];
    cbn [String.append without until_quote].
  - intros _. now rewrite Ascii.eqb_refl.
  - rewrite andb_true_iff. intros [Hc Hn]. apply negb_true_iff in Hc.
    now rewrite Hc, (IH Hn).
Qed.

(** A text without the first character of [p] does not contain [p]. *)
Lemma contains_needs_first : forall c p s,
  without c s = true -> contains (String c p) s = false.
Proof.
  intros c p s. induction s as [|x s IH]; cbn [without contains startswith];
    [reflexivity|].
  rewrite andb_true_iff. intros [Hx Hs]. apply negb_true_iff in Hx.
  rewrite Ascii.eqb_sym, Hx, (IH Hs). reflexivity.
Qed.

Lemma search_digits_percent_skip : forall raw r,
  all_digits raw = true ->
  search_digits_percent (raw ++ String " " r)
  = search_digits_percent (String " " r).
Proof.
  intros raw r. induction raw as [|c raw IH]; [reflexivity|].
  cbn [all_digits]. rewrite andb_true_iff. intros [Hc Hraw].
  cbn [String.append search_digits_percent]. rewrite (IH Hraw).
  unfold digits_percent_at at 1. cbn [take_digits drop_digits]. rewrite Hc.
  rewrite (drop_digits_app raw " " r Hraw eq_refl). reflexivity.
Qed.

Lemma search_digits_percent_here : forall percent r,
  PyStr.truthy percent = true -> all_digits percent = true ->
  search_digits_percent (percent ++ String "%" r) = Some percent.
Proof.
  intros [|c p] r Ht Hd; [discriminate|].
  cbn [String.append search_digits_percent]. unfold digits_percent_at.
  change (String c (p ++ String "%" r)) with (String c p ++ String "%" r)%string.
  rewrite (take_digits_app (String c p) "%" r Hd eq_refl).
  rewrite (drop_digits_app (String c p) "%" r Hd eq_refl). reflexivity.
Qed.

Lemma split_lines_one : forall s,
  without LF s = true -> split_lines s = [s].
Proof.
  induction s as [|c s IH]; cbn [without split_lines]; [reflexivity|].
  rewrite andb_true_iff. intros [Hc Hs]. apply negb_true_iff in Hc.
  now rewrite Hc, (IH Hs).
Qed.

Lemma split_lines_app : forall s t,
  without LF s = true ->
  split_lines (s ++ String LF t) = s :: split_lines t.
Proof.
  intros s t. induction s as [|c s IH]; cbn [String.append without split_lines].
  - intros _. now rewrite Ascii.eqb_refl.
  - rewrite andb_true_iff. intros [Hc Hs]. apply negb_true_iff in Hc.
    now rewrite Hc, (IH Hs).
Qed.

(** Joining lines without line feeds and splitting again gives the lines. *)
Lemma split_lines_unlines : forall ls,
  ls <> [] -> Forall (fun l => without LF l = true) ls ->
  split_lines (unlines ls) = ls.
Proof.
  induction ls as [|l ls IH]; intros Hne Hall; [congruence|].
  inversion Hall as [|? ? Hl Hls]. subst.
  destruct ls as [|l' ls'].
  - cbn [unlines]. exact (split_lines_one l Hl).
  - change (unlines (l :: l' :: ls'))
      with (l ++ String LF (unlines (l' :: ls')))%string.
    rewrite (split_lines_app _ _ Hl), IH; [reflexivity|discriminate|exact Hls].
Qed.

Lemma search_app_name_here : forall s v,
  startswith app_name_key s = true ->
  until_quote (skip (String.length app_name_key) s) = Some v ->
  search_app_name s = Some v.
Proof.
  intros s v Hk Hv. destruct s as [|c s]; cbn [search_app_name];
    rewrite Hk, Hv; reflexivity.
Qed.

Lemma mute_line_strip : forall muted,
  strip (mute_line muted) = ("Mute: " ++ (if muted then "yes" else "no"))%string.
Proof. intros [|]; reflexivity. Qed.

Lemma name_line_strip : forall name,
  strip (name_line name) = ("application.name = " ++ quoted name)%string.
Proof.
  intros name. unfold strip.
  change (lstrip (name_line name))
    with ("application.name = " ++ quoted name)%string.
  apply rstrip_app_keep; [|reflexivity].
  change (quoted name)
    with (String dquote name ++ String dquote EmptyString)%string.
  apply rstrip_app_keep; reflexivity.
Qed.

Lemma marker_line_strip : forall p i,
  lstrip (p ++ i) = (p ++ i)%string ->
  PyStr.truthy i = true -> all_digits i = true ->
  strip (p ++ i) = (p ++ i)%string.
Proof.
  intros p i Hl Ht Hd. unfold strip. rewrite Hl.
  apply rstrip_app_keep; [exact (rstrip_digits i Hd)|exact Ht].
Qed.

Lemma search_hash_digits_marker : forall i,
  PyStr.truthy i = true -> all_digits i = true ->
  search_hash_digits (String "#" i) = Some i.
Proof.
  intros i Ht Hd. cbn [search_hash_digits].
  change (Ascii.eqb "#" "#") with true. cbv iota.
  rewrite (take_digits_all i Hd). destruct i; [discriminate|reflexivity].
Qed.

Lemma sink_step_ignored : forall acc cur line,
  sink_ignored line = true -> sink_step_total (acc, cur) line = (acc, cur).
Proof.
  intros acc cur line H. unfold sink_ignored in H.
  apply andb_true_iff in H. destruct H as [Hm Hf].
  apply negb_true_iff in Hm, Hf. unfold sink_field in Hf.
  rewrite Hm in Hf. cbn [negb andb] in Hf.
  unfold sink_marker in Hm. unfold sink_step_total. cbv zeta. rewrite Hm.
  destruct (contains "application.name" (strip line)).
  - destruct (search_app_name (strip line)); [discriminate|reflexivity].
  - destruct (startswith "Mute:" (strip line)); [discriminate|].
    destruct (startswith "Volume:" (strip line)); [|reflexivity].
    destruct (search_digits_percent (strip line)); [discriminate|reflexivity].
Qed.

Lemma source_step_ignored : forall acc cur line,
  source_ignored line = true -> source_step (acc, cur) line = (acc, cur).
Proof.
  intros acc cur line H. unfold source_ignored in H.
  apply andb_true_iff in H. destruct H as [Hm Hf].
  apply negb_true_iff in Hm, Hf. unfold source_field in Hf.
  rewrite Hm in Hf. cbn [negb andb] in Hf.
  unfold source_marker in Hm. unfold source_step. cbv zeta. rewrite Hm.
  destruct (contains "application.name" (strip line)).
  - destruct (search_app_name (strip line)); [discriminate|reflexivity].
  - destruct (startswith "Mute:" (strip line)); [discriminate|reflexivity].
Qed.

Lemma fold_ignored : forall step (ignored : string -> bool),
  (forall acc cur line, ignored line = true -> step (acc, cur) line = (acc, cur)) ->
  forall ls (acc : list Stream.t) (cur : Stream.t),
    forallb ignored ls = true -> fold_left step ls (acc, cur) = (acc, cur).
Proof.
  intros step ignored Hstep ls. induction ls as [|l ls IH]; intros acc cur H;
    [reflexivity|].
  cbn [forallb] in H. apply andb_true_iff in H. destruct H as [Hl Hls].
  cbn [fold_left]. rewrite (Hstep acc cur l Hl). exact (IH acc cur Hls).
Qed.

Lemma sink_step_marker_line : forall acc cur i,
  PyStr.truthy i = true -> all_digits i = true ->
  sink_step_total (acc, cur) ("Sink Input #" ++ i)
  = (if Stream.truthy cur then acc ++ [cur] else acc,
     Stream.mk (Some i) (Some "sink-input") None None None).
Proof.
  intros acc cur i Ht Hd. unfold sink_step_total. cbv zeta.
  rewrite (marker_line_strip "Sink Input #" i eq_refl Ht Hd).
  change (startswith "Sink Input #" ("Sink Input #" ++ i)) with true.
  cbv iota.
  change (search_hash_digits ("Sink Input #" ++ i))
    with (search_hash_digits (String "#" i)).
  rewrite (search_hash_digits_marker i Ht Hd). reflexivity.
Qed.

Lemma source_step_marker_line : forall acc cur i,
  PyStr.truthy i = true -> all_digits i = true ->
  source_step (acc, cur) ("Source Output #" ++ i)
  = (if Stream.truthy cur then acc ++ [cur] else acc,
     Stream.mk (Some i) (Some "source-output") None None None).
Proof.
  intros acc cur i Ht Hd. unfold source_step. cbv zeta.
  rewrite (marker_line_strip "Source Output #" i eq_refl Ht Hd).
  change (startswith "Source Output #" ("Source Output #" ++ i)) with true.
  cbv iota.
  change (search_hash_digits ("Source Output #" ++ i))
    with (search_hash_digits (String "#" i)).
  rewrite (search_hash_digits_marker i Ht Hd). reflexivity.
Qed.

Lemma sink_step_mute_line : forall acc cur muted,
  sink_step_total (acc, cur) (mute_line muted) = (acc, Stream.set_muted muted cur).
Proof. intros acc cur [|]; reflexivity. Qed.

Lemma source_step_mute_line : forall acc cur muted,
  source_step (acc, cur) (mute_line muted) = (acc, Stream.set_muted muted cur).
Proof. intros acc cur [|]; reflexivity. Qed.

Lemma search_app_name_line : forall name,
  without dquote name = true ->
  search_app_name ("application.name = " ++ quoted name) = Some name.
Proof.
  intros name Hn. apply search_app_name_here; [reflexivity|].
  change (skip (String.length app_name_key)
               ("application.name = " ++ quoted name))
    with (name ++ String dquote EmptyString)%string.
  exact (until_quote_app name EmptyString Hn).
Qed.

Lemma sink_step_name_line : forall acc cur name,
  without dquote name = true ->
  sink_step_total (acc, cur) (name_line name)
  = (acc, Stream.set_app_name name cur).
Proof.
  intros acc cur name Hn. unfold sink_step_total. cbv zeta.
  rewrite name_line_strip.
  change (startswith "Sink Input #" ("application.name = " ++ quoted name))
    with false.
  change (contains "application.name" ("application.name = " ++ quoted name))
    with true.
  cbv iota. rewrite (search_app_name_line name Hn). reflexivity.
Qed.

Lemma source_step_name_line : forall acc cur name,
  without dquote name = true ->
  source_step (acc, cur) (name_line name)
  = (acc, Stream.set_app_name name cur).
Proof.
  intros acc cur name Hn. unfold source_step. cbv zeta.
  rewrite name_line_strip.
  change (startswith "Source Output #" ("application.name = " ++ quoted name))
    with false.
  change (contains "application.name" ("application.name = " ++ quoted name))
    with true.
  cbv iota. rewrite (search_app_name_line name Hn). reflexivity.
Qed.

Lemma volume_line_strip : forall raw percent,
  strip (String TAB ("Volume: front-left: " ++ raw ++ " / " ++ percent
                     ++ "% / 0.00 dB"))
  = ("Volume: front-left: " ++ raw ++ " / " ++ percent ++ "% / 0.00 dB")%string.
Proof.
  intros raw percent. unfold strip.
  change (lstrip (String TAB ("Volume: front-left: " ++ raw ++ " / "
                              ++ percent ++ "% / 0.00 dB")))
    with ("Volume: front-left: " ++ raw ++ " / " ++ percent
          ++ "% / 0.00 dB")%string.
  repeat (apply rstrip_app_keep; [|repeat apply truthy_app_r; reflexivity]).
  reflexivity.
Qed.

Lemma sink_step_volume_line : forall acc cur raw percent,
  all_digits raw = true ->
  PyStr.truthy percent = true -> all_digits percent = true ->
  sink_step_total (acc, cur)
            (String TAB ("Volume: front-left: " ++ raw ++ " / " ++ percent
                         ++ "% / 0.00 dB"))
  = (acc, Stream.set_volume (int_of_digits percent) cur).
Proof.
  intros acc cur raw percent Hraw Ht Hp. unfold sink_step_total. cbv zeta.
  rewrite volume_line_strip.
  set (body := ("Volume: front-left: " ++ raw ++ " / " ++ percent
                ++ "% / 0.00 dB")%string).
  change (startswith "Sink Input #" body) with false. cbv iota.
  assert (Hc : contains "application.name" body = false).
  { apply contains_needs_first. unfold body. rewrite !without_app.
    rewrite (digits_without "a" raw eq_refl Hraw).
    rewrite (digits_without "a" percent eq_refl Hp). reflexivity. }
  rewrite Hc.
  change (startswith "Mute:" body) with false.
  change (startswith "Volume:" body) with true. cbv iota.
  assert (Hs : search_digits_percent body = Some percent).
  { change (search_digits_percent body)
      with (search_digits_percent
              (raw ++ String " " ("/ " ++ percent ++ "% / 0.00 dB"))).
    rewrite (search_digits_percent_skip raw _ Hraw).
    change (search_digits_percent
              (String " " ("/ " ++ percent ++ "% / 0.00 dB")))
      with (search_digits_percent (percent ++ String "%" " / 0.00 dB")).
    exact (search_digits_percent_here percent _ Ht Hp). }
  rewrite Hs. reflexivity.
Qed.

Lemma forallb_app_true : forall {A} (f : A -> bool) a b,
  forallb f (a ++ b) = true -> forallb f a = true /\ forallb f b = true.
Proof.
  intros A f a b H. rewrite forallb_app in H. now apply andb_true_iff in H.
Qed.

Lemma forallb_Forall_true : forall {A} (f : A -> bool) l,
  forallb f l = true -> Forall (fun x => f x = true) l.
Proof. intros A f l H. apply Forall_forall. now apply forallb_forall. Qed.

(** One block of the playback listing gives its record. *)
Lemma sink_block_fold : forall b acc cur,
  PlaybackBlock.ok b = true ->
  fold_left sink_step_total (PlaybackBlock.lines b) (acc, cur)
  = (if Stream.truthy cur then acc ++ [cur] else acc, PlaybackBlock.record b).
Proof.
  intros b acc cur Hok. unfold PlaybackBlock.ok in Hok.
  repeat (apply andb_true_iff in Hok; destruct Hok as [Hok ?]).
  unfold PlaybackBlock.others in *.
  repeat match goal with
         | H : forallb sink_ignored (_ ++ _) = true |- _ =>
             apply forallb_app_true in H; destruct H
         end.
  unfold PlaybackBlock.lines. rewrite !fold_left_app. cbn [fold_left].
  rewrite sink_step_marker_line by assumption.
  rewrite (fold_ignored sink_step_total sink_ignored sink_step_ignored) by assumption.
  rewrite sink_step_mute_line.
  rewrite (fold_ignored sink_step_total sink_ignored sink_step_ignored) by assumption.
  rewrite sink_step_volume_line by assumption.
  rewrite (fold_ignored sink_step_total sink_ignored sink_step_ignored) by assumption.
  rewrite sink_step_name_line by assumption.
  rewrite (fold_ignored sink_step_total sink_ignored sink_step_ignored) by assumption.
  reflexivity.
Qed.

Lemma source_block_fold : forall b acc cur,
  RecordingBlock.ok b = true ->
  fold_left source_step (RecordingBlock.lines b) (acc, cur)
  = (if Stream.truthy cur then acc ++ [cur] else acc, RecordingBlock.record b).
Proof.
  intros b acc cur Hok. unfold RecordingBlock.ok in Hok.
  repeat (apply andb_true_iff in Hok; destruct Hok as [Hok ?]).
  unfold RecordingBlock.others in *.
  repeat match goal with
         | H : forallb source_ignored (_ ++ _) = true |- _ =>
             apply forallb_app_true in H; destruct H
         end.
  unfold RecordingBlock.lines. rewrite !fold_left_app. cbn [fold_left].
  rewrite source_step_marker_line by assumption.
  rewrite (fold_ignored source_step source_ignored source_step_ignored)
    by assumption.
  rewrite source_step_mute_line.
  rewrite (fold_ignored source_step source_ignored source_step_ignored)
    by assumption.
  rewrite source_step_name_line by assumption.
  rewrite (fold_ignored source_step source_ignored source_step_ignored)
    by assumption.
  reflexivity.
Qed.

(** Blocks after a record under construction: the record is flushed and
    each block but the last gives a flushed record. *)
Lemma blocks_fold : forall {B : Type}
    (step : list Stream.t * Stream.t -> string -> list Stream.t * Stream.t)
    (lines : B -> list string) (record : B -> Stream.t) (ok : B -> bool),
  (forall b acc cur, ok b = true ->
     fold_left step (lines b) (acc, cur)
     = (if Stream.truthy cur then acc ++ [cur] else acc, record b)) ->
  (forall b, Stream.truthy (record b) = true) ->
  forall bs acc cur,
    Forall (fun b => ok b = true) bs ->
    Stream.truthy cur = true ->
    let r := fold_left step (flat_map lines bs) (acc, cur) in
    fst r ++ [snd r] = acc ++ cur :: map record bs
    /\ Stream.truthy (snd r) = true.
Proof.
  intros B step lines record ok Hblock Htruthy bs.
  induction bs as [|b bs IH]; intros acc cur Hall Hcur; cbn zeta.
  - cbn. auto.
  - inversion Hall as [|? ? Hb Hbs]. subst.
    cbn [flat_map map]. rewrite fold_left_app, (Hblock b acc cur Hb), Hcur.
    destruct (IH (acc ++ [cur]) (record b) Hbs (Htruthy b)) as [H1 H2].
    split; [|exact H2]. rewrite H1, <- app_assoc. reflexivity.
Qed.

Lemma mute_line_without_LF : forall muted, without LF (mute_line muted) = true.
Proof. intros [|]; reflexivity. Qed.

Lemma name_line_without_LF : forall name,
  without LF name = true -> without LF (name_line name) = true.
Proof.
  intros name H. unfold name_line, quoted. cbn [without].
  change (Ascii.eqb TAB LF) with false. cbn [negb andb].
  rewrite without_app. cbn [without].
  change (Ascii.eqb dquote LF) with false. cbn [negb andb].
  rewrite without_app, H. reflexivity.
Qed.

Lemma sink_block_without_LF : forall b,
  PlaybackBlock.ok b = true ->
  Forall (fun l => without LF l = true) (PlaybackBlock.lines b).
Proof.
  intros b Hok. unfold PlaybackBlock.ok in Hok.
  repeat (apply andb_true_iff in Hok; destruct Hok as [Hok ?]).
  unfold PlaybackBlock.others in *.
  repeat match goal with
         | H : forallb (without LF) (_ ++ _) = true |- _ =>
             apply forallb_app_true in H; destruct H
         end.
  unfold PlaybackBlock.lines.
  repeat (apply Forall_app; split);
    try (apply forallb_Forall_true; assumption);
    (constructor; [|constructor]).
  - rewrite without_app.
    rewrite (digits_without LF (PlaybackBlock.id b) eq_refl) by assumption.
    reflexivity.
  - apply mute_line_without_LF.
  - cbn [without]. change (Ascii.eqb TAB LF) with false. cbn [negb andb].
    rewrite !without_app.
    rewrite (digits_without LF (PlaybackBlock.raw b) eq_refl) by assumption.
    rewrite (digits_without LF (PlaybackBlock.percent b) eq_refl)
      by assumption.
    reflexivity.
  - apply name_line_without_LF. assumption.
Qed.

Lemma source_block_without_LF : forall b,
  RecordingBlock.ok b = true ->
  Forall (fun l => without LF l = true) (RecordingBlock.lines b).
Proof.
  intros b Hok. unfold RecordingBlock.ok in Hok.
  repeat (apply andb_true_iff in Hok; destruct Hok as [Hok ?]).
  unfold RecordingBlock.others in *.
  repeat match goal with
         | H : forallb (without LF) (_ ++ _) = true |- _ =>
             apply forallb_app_true in H; destruct H
         end.
  unfold RecordingBlock.lines.
  repeat (apply Forall_app; split);
    try (apply forallb_Forall_true; assumption);
    (constructor; [|constructor]).
  - rewrite without_app.
    rewrite (digits_without LF (RecordingBlock.id b) eq_refl) by assumption.
    reflexivity.
  - apply mute_line_without_LF.
  - apply name_line_without_LF. assumption.
Qed.

Lemma flat_map_Forall : forall {A B} (f : A -> list B) (P : B -> Prop) l,
  (forall a, In a l -> Forall P (f a)) -> Forall P (flat_map f l).
Proof.
  intros A B f P l H. induction l as [|a l IH]; cbn [flat_map]; [constructor|].
  apply Forall_app. split; [apply H; left; reflexivity|].
  apply IH. intros a' Ha'. apply H. right. exact Ha'.
Qed.

(** The parser on a text made of blocks. *)
Lemma parse_blocks : forall {B : Type}
    (step : list Stream.t * Stream.t -> string -> list Stream.t * Stream.t)
    (lines : B -> list string) (record : B -> Stream.t) (ok : B -> bool),
  (forall b acc cur, ok b = true ->
     fold_left step (lines b) (acc, cur)
     = (if Stream.truthy cur then acc ++ [cur] else acc, record b)) ->
  (forall b, Stream.truthy (record b) = true) ->
  (forall b, ok b = true -> Forall (fun l => without LF l = true) (lines b)) ->
  (forall b, lines b <> []) ->
  forall b bs,
    Forall (fun b => ok b = true) (b :: bs) ->
    let r := fold_left step (split_lines (unlines (flat_map lines (b :: bs))))
                       ([], Stream.empty) in
    (if Stream.truthy (snd r) then fst r ++ [snd r] else fst r)
    = map record (b :: bs).
Proof.
  intros B step lines record ok Hblock Htruthy HLF Hne b bs Hall.
  inversion Hall as [|? ? Hb Hbs]. subst.
  rewrite split_lines_unlines.
  - cbn [flat_map map]. rewrite fold_left_app, (Hblock b [] Stream.empty Hb).
    change (Stream.truthy Stream.empty) with false. cbv iota.
    destruct (blocks_fold step lines record ok Hblock Htruthy bs []
                (record b) Hbs (Htruthy b)) as [H1 H2].
    cbn zeta. rewrite H2. exact H1.
  - cbn [flat_map]. specialize (Hne b).
    destruct (lines b); [congruence|discriminate].
  - apply flat_map_Forall. intros a Ha. apply HLF.
    rewrite Forall_forall in Hall. exact (Hall a Ha).
Qed.

Lemma unlines_truthy : forall m rest,
  PyStr.truthy m = true -> PyStr.truthy (unlines (m :: rest)) = true.
Proof.
  intros m rest H. destruct rest as [|l rest]; cbn [unlines]; [exact H|].
  destruct m; [discriminate|reflexivity].
Qed.

(** The lines of a block on which the playback loop does not raise. *)
Lemma sink_overlong_is_field : forall line,
  sink_overlong line = true -> sink_field line = true.
Proof.
  intros line. unfold sink_overlong, sink_field, sink_marker. cbv zeta.
  destruct (startswith "Sink Input #" (strip line)); [discriminate|].
  destruct (contains "application.name" (strip line)); [discriminate|].
  destruct (startswith "Mute:" (strip line)); [discriminate|].
  destruct (startswith "Volume:" (strip line)); [|discriminate].
  destruct (search_digits_percent (strip line)); [reflexivity|discriminate].
Qed.

Lemma sink_ignored_not_overlong : forall ls,
  forallb sink_ignored ls = true -> existsb sink_overlong ls = false.
Proof.
  induction ls as [|l ls IH]; cbn [forallb existsb]; [reflexivity|].
  rewrite andb_true_iff. intros [Hl Hls]. rewrite (IH Hls), orb_false_r.
  destruct (sink_overlong l) eqn:Ho; [|reflexivity].
  apply sink_overlong_is_field in Ho. unfold sink_ignored in Hl.
  rewrite Ho, andb_false_r in Hl. discriminate Hl.
Qed.

Lemma sink_overlong_marker_line : forall i,
  PyStr.truthy i = true -> all_digits i = true ->
  sink_overlong ("Sink Input #" ++ i) = false.
Proof.
  intros i Ht Hd. unfold sink_overlong. cbv zeta.
  rewrite (marker_line_strip "Sink Input #" i eq_refl Ht Hd).
  change (startswith "Sink Input #" ("Sink Input #" ++ i)) with true.
  reflexivity.
Qed.

Lemma sink_overlong_mute_line : forall muted,
  sink_overlong (mute_line muted) = false.
Proof. intros [|]; reflexivity. Qed.

Lemma sink_overlong_name_line : forall name,
  sink_overlong (name_line name) = false.
Proof.
  intros name. unfold sink_overlong. cbv zeta. rewrite name_line_strip.
  change (startswith "Sink Input #" ("application.name = " ++ quoted name))
    with false.
  change (contains "application.name" ("application.name = " ++ quoted name))
    with true.
  reflexivity.
Qed.

Lemma sink_overlong_volume_line : forall raw percent,
  all_digits raw = true ->
  PyStr.truthy percent = true -> all_digits percent = true ->
  sink_overlong (String TAB ("Volume: front-left: " ++ raw ++ " / " ++ percent
                             ++ "% / 0.00 dB"))
  = Nat.ltb max_str_digits (String.length percent).
Proof.
  intros raw percent Hraw Ht Hp. unfold sink_overlong. cbv zeta.
  rewrite volume_line_strip.
  set (body := ("Volume: front-left: " ++ raw ++ " / " ++ percent
                ++ "% / 0.00 dB")%string).
  change (startswith "Sink Input #" body) with false.
  assert (Hc : contains "application.name" body = false).
  { apply contains_needs_first. unfold body. rewrite !without_app.
    rewrite (digits_without "a" raw eq_refl Hraw).
    rewrite (digits_without "a" percent eq_refl Hp). reflexivity. }
  rewrite Hc.
  change (startswith "Mute:" body) with false.
  change (startswith "Volume:" body) with true.
  assert (Hs : search_digits_percent body = Some percent).
  { change (search_digits_percent body)
      with (search_digits_percent
              (raw ++ String " " ("/ " ++ percent ++ "% / 0.00 dB"))).
    rewrite (search_digits_percent_skip raw _ Hraw).
    change (search_digits_percent
              (String " " ("/ " ++ percent ++ "% / 0.00 dB")))
      with (search_digits_percent (percent ++ String "%" " / 0.00 dB")).
    exact (search_digits_percent_here percent _ Ht Hp). }
  rewrite Hs. reflexivity.
Qed.

Lemma sink_block_not_overlong : forall b,
  PlaybackBlock.ok b = true ->
  existsb sink_overlong (PlaybackBlock.lines b) = false.
Proof.
  intros b Hok. unfold PlaybackBlock.ok in Hok.
  repeat (apply andb_true_iff in Hok; destruct Hok as [Hok ?]).
  unfold PlaybackBlock.others in *.
  repeat match goal with
         | H : forallb sink_ignored (_ ++ _) = true |- _ =>
             apply forallb_app_true in H; destruct H
         end.
  unfold PlaybackBlock.lines. rewrite !existsb_app. cbn [existsb].
  rewrite sink_overlong_marker_line by assumption.
  rewrite sink_overlong_mute_line.
  rewrite sink_overlong_volume_line by assumption.
  rewrite sink_overlong_name_line.
  rewrite !sink_ignored_not_overlong by assumption.
  match goal with
  | H : Nat.leb _ max_str_digits = true |- _ =>
      apply Nat.leb_le in H; apply Nat.ltb_ge in H; rewrite H
  end.
  reflexivity.
Qed.

Lemma sink_blocks_not_overlong : forall bs,
  Forall (fun b => PlaybackBlock.ok b = true) bs ->
  existsb sink_overlong (flat_map PlaybackBlock.lines bs) = false.
Proof.
  induction 1 as [|b bs Hb _ IH]; cbn [flat_map]; [reflexivity|].
  now rewrite existsb_app, (sink_block_not_overlong b Hb), IH.
Qed.

(** The playback parser without the limit of [int] on a text of blocks. *)
Lemma parse_playback_blocks : forall blocks,
  Forall (fun b => PlaybackBlock.ok b = true) blocks ->
  parse_sink_inputs_total (Some (unlines (flat_map PlaybackBlock.lines blocks)))
  = map PlaybackBlock.record blocks.
Proof.
  intros blocks Hall. unfold parse_sink_inputs_total.
  destruct blocks as [|b bs]; [reflexivity|].
  assert (Hne : PyStr.truthy (unlines (flat_map PlaybackBlock.lines (b :: bs)))
                = true).
  { cbn [flat_map]. unfold PlaybackBlock.lines at 1. cbn [app].
    apply unlines_truthy. reflexivity. }
  rewrite Hne. cbn [negb].
  assert (Hlines : forall b', PlaybackBlock.lines b' <> [])
    by (intros b'; unfold PlaybackBlock.lines; discriminate).
  pose proof (parse_blocks sink_step_total PlaybackBlock.lines
                PlaybackBlock.record PlaybackBlock.ok
                sink_block_fold (fun b => eq_refl) sink_block_without_LF
                Hlines b bs Hall) as H.
  cbn zeta in H.
  destruct (fold_left sink_step_total
              (split_lines (unlines (flat_map PlaybackBlock.lines (b :: bs))))
              ([], Stream.empty)) as [sinks cur].
  exact H.
Qed.

Section Blocks.

Context {World : Type}.
Variable pactl : list string -> World -> process * World.

(** X13.  When pactl prints, for each playback stream, a marker line with
    an id of digits, the line of the mute flag, the volume line with a
    percentage of at most as many digits as [int] converts, and the line
    of the application name, with any lines the parser ignores in
    between, [_get_sink_inputs] returns exactly one record per stream, in
    order, with that id, the type sink-input, that name, that flag and
    the percentage of the volume line. *)
Theorem playback_listing_parsed : forall st blocks,
  Forall (fun b => PlaybackBlock.ok b = true) blocks ->
  fst (pactl list_sink_inputs (world st))
  = Exited 0 (unlines (flat_map PlaybackBlock.lines blocks)) ->
  fst (_get_sink_inputs pactl st) = Val (map PlaybackBlock.record blocks).
Proof.
  intros st blocks Hall Hp. rewrite get_sink_inputs_spec.
  fold list_sink_inputs. rewrite Hp. cbn [fst Z.eqb].
  rewrite parse_sink_inputs_cases.
  assert (Hlong : existsb sink_overlong
                    (split_lines (unlines (flat_map PlaybackBlock.lines blocks)))
                  = false).
  { destruct blocks as [|b bs]; [reflexivity|].
    rewrite split_lines_unlines.
    - exact (sink_blocks_not_overlong _ Hall).
    - cbn [flat_map]. unfold PlaybackBlock.lines at 1. discriminate.
    - apply flat_map_Forall. intros a Ha. apply sink_block_without_LF.
      rewrite Forall_forall in Hall. exact (Hall a Ha). }
  rewrite Hlong. f_equal. exact (parse_playback_blocks blocks Hall).
Qed.

(** X14.  The same for the recording listing: [_get_source_outputs]
    returns one record per stream, in order, with the id, the type
    source-output, the name and the flag, and no volume. *)
Theorem recording_listing_parsed : forall st blocks,
  Forall (fun b => RecordingBlock.ok b = true) blocks ->
  fst (pactl list_source_outputs (world st))
  = Exited 0 (unlines (flat_map RecordingBlock.lines blocks)) ->
  fst (_get_source_outputs pactl st) = Val (map RecordingBlock.record blocks).
Proof.
  intros st blocks Hall Hp. rewrite get_source_outputs_spec.
  fold list_source_outputs. rewrite Hp. cbn [fst Z.eqb]. f_equal.
  unfold parse_source_outputs.
  destruct blocks as [|b bs]; [reflexivity|].
  assert (Hne : PyStr.truthy (unlines (flat_map RecordingBlock.lines (b :: bs))) = true).
  { cbn [flat_map]. unfold RecordingBlock.lines at 1. cbn [app].
    apply unlines_truthy. reflexivity. }
  rewrite Hne. cbn [negb].
  assert (Hlines : forall b', RecordingBlock.lines b' <> [])
    by (intros b'; unfold RecordingBlock.lines; discriminate).
  pose proof (parse_blocks source_step RecordingBlock.lines RecordingBlock.record RecordingBlock.ok
                source_block_fold (fun b => eq_refl) source_block_without_LF
                Hlines b bs Hall) as H.
  cbn zeta in H.
  destruct (fold_left source_step
              (split_lines (unlines (flat_map RecordingBlock.lines (b :: bs))))
              ([], Stream.empty)) as [sources cur].
  exact H.
Qed.

End Blocks.

(** ** The further properties on the scripted tool *)

(** X1, on a tool that is not found, on a tool whose output is no text
    and on a listing on which [int] raises. *)
Lemma controller_disciplined_witness :
  (exists es,
     trace (snd (get_status Script.missing Script.init))
     = trace Script.init ++ es
     /\ raised_by (OSError FileNotFoundError) es)
  /\ (exists es,
        trace (snd (toggle_mute Sample.garbled Script.init))
        = trace Script.init ++ es
        /\ raised_by UnicodeDecodeError es)
  /\ (exists es,
        trace (snd (set_mute Sample.overlong true Script.init))
        = trace Script.init ++ es
        /\ raised_by ValueError es).
Proof.
  split; [|split].
  - destruct (proj1 (controller_disciplined Script.missing) Script.init)
      as (es & Htr & Hd).
    exists es. split; [exact Htr|].
    replace (fst (get_status Script.missing Script.init))
      with (@Raise Status.t (OSError FileNotFoundError)) in Hd
      by (vm_compute; reflexivity).
    exact Hd.
  - destruct (proj1 (proj2 (controller_disciplined Sample.garbled))
                Script.init) as (es & Htr & Hd).
    exists es. split; [exact Htr|].
    replace (fst (toggle_mute Sample.garbled Script.init))
      with (@Raise Summary.t UnicodeDecodeError) in Hd
      by (vm_compute; reflexivity).
    exact Hd.
  - destruct (proj2 (proj2 (controller_disciplined Sample.overlong)) true
                Script.init) as (es & Htr & Hd).
    exists es. split; [exact Htr|].
    replace (fst (set_mute Sample.overlong true Script.init))
      with (@Raise Summary.t ValueError) in Hd
      by (vm_compute; reflexivity).
    exact Hd.
Defined.

(** X2, on a tool that answers both listings, on a tool that is not
    found and on a listing on which [int] raises. *)
Lemma get_status_only_lists_witness :
  (exists es,
     trace (snd (get_status Script.healthy Script.init))
     = trace Script.init ++ es
     /\ es = [(list_sink_inputs, Exited 0 Script.sinks_text);
              (list_source_outputs, Exited 0 Script.sources_text)]
     /\ Forall exited es)
  /\ (exists es,
        trace (snd (get_status Script.missing Script.init))
        = trace Script.init ++ es
        /\ es = [(list_sink_inputs, NotStarted FileNotFoundError)])
  /\ (exists es,
        trace (snd (get_status Sample.overlong Script.init))
        = trace Script.init ++ es
        /\ es = [(list_sink_inputs, Exited 0 Sample.overlong_text)]).
Proof.
  split; [|split].
  - destruct (get_status_only_lists Script.healthy Script.init)
      as (es & Htr & _ & Hval & _).
    destruct Hval as (Hes & Hex); [eexists; vm_compute; reflexivity|].
    exists es. auto.
  - destruct (get_status_only_lists Script.missing Script.init)
      as (es & Htr & _ & _ & Hskip & _).
    exists es. split; [exact Htr|]. apply Hskip. discriminate.
  - destruct (get_status_only_lists Sample.overlong Script.init)
      as (es & Htr & _ & _ & _ & Hint & _).
    exists es. split; [exact Htr|]. apply Hint. vm_compute. reflexivity.
Defined.

(** X3, on a run that mutes three streams. *)
Lemma commands_are_clean_witness :
  exists es,
    trace (snd (perform Script.flaky (SetMute true) Script.init))
    = trace Script.init ++ es
    /\ Forall (fun e => fst e = list_sink_inputs
                        \/ fst e = list_source_outputs
                        \/ clean_mute_command (fst e)) es.
Proof.
  exact (commands_are_clean Script.flaky (SetMute true) Script.init).
Defined.

(** X4, on a run in which two of three commands exit with code zero. *)
Lemma affected_counts_zero_exits_witness :
  let r := perform Script.flaky (SetMute true) Script.init in
  let s := Script.returned r no_streams in
  Summary.streams_affected s = 2
  /\ exists es,
       trace (snd r) = trace (Script.after_selection Script.flaky) ++ es
       /\ Forall exited es
       /\ Forall (fun e => mute_set_with "1" (fst e)) es
       /\ Summary.streams_affected s
          = length (filter (fun e => exited_zero (snd e)) es)
       /\ (Summary.success s = true
           <-> Exists (fun e => exited_zero (snd e) = true) es).
Proof.
  intros r s. split; [reflexivity|].
  apply (affected_counts_zero_exits Script.flaky (SetMute true) Script.init
           (Script.selected Script.flaky)
           (Script.after_selection Script.flaky) s (snd r));
    vm_compute; reflexivity.
Defined.

(** X5, on the status and on a mute of three streams. *)
Lemma default_name_never_shown_witness :
  Forall (fun i => StreamInfo.app_name i <> "Unknown"
                   /\ exists p, In p spec_patterns
                        /\ contains p (lower (StreamInfo.app_name i)) = true)
         (Status.streams
            (Script.returned (get_status Script.healthy Script.init)
                             (Status.mk false false EmptyString [])))
  /\ forall rs,
       Summary.results
         (Script.returned (perform Script.flaky (SetMute true) Script.init)
                          no_streams) = Some rs ->
       Forall (fun r => StreamResult.app_name r <> "Unknown") rs.
Proof.
  split.
  - apply (proj1 (default_name_never_shown Script.healthy Script.init)
             _ (snd (get_status Script.healthy Script.init))).
    vm_compute. reflexivity.
  - intros rs.
    apply (proj2 (default_name_never_shown Script.flaky Script.init)
             (SetMute true) _
             (snd (perform Script.flaky (SetMute true) Script.init))).
    vm_compute. reflexivity.
Defined.



(** X8, on the two listings of the scripted tool. *)
Lemma selection_is_substring_match_witness :
  exists streams,
    _find_discord_streams Script.healthy Script.init
    = (Val streams, Script.after_selection Script.healthy)
    /\ In Script.stream42 streams.
Proof.
  destruct (selection_is_substring_match Script.healthy Script.init
              (parse_sink_inputs_total (Some Script.sinks_text))
              (snd (_get_sink_inputs Script.healthy Script.init))
              (parse_source_outputs (Some Script.sources_text))
              (Script.after_selection Script.healthy))
    as (streams & Hsel & Hiff); [vm_compute; reflexivity ..|].
  exists streams. split; [exact Hsel|]. apply Hiff. split.
  - vm_compute. left. reflexivity.
  - exists "WEBRTC VoiceEngine", "WEBRTC VoiceEngine", EmptyString,
      EmptyString.
    split; [reflexivity|]. split; [left; reflexivity|reflexivity].
Defined.

(** X9, on the route that mutes, with one failing command of three. *)
Lemma mute_route_status_code_witness :
  status_code (fst (serve Script.flaky Sample.str RouteMute Script.init)) = 200
  /\ exists es,
       trace (snd (serve Script.flaky Sample.str RouteMute Script.init))
       = trace (Script.after_selection Script.flaky) ++ es
       /\ Forall exited es
       /\ Exists (fun e => exited_zero (snd e) = true) es.
Proof.
  split; [reflexivity|].
  destruct (mute_route_status_code Script.flaky Sample.str RouteMute
              Script.init (Script.selected Script.flaky)
              (Script.after_selection Script.flaky))
    as (es & Htr & H200 & _); [vm_compute; reflexivity|].
  exists es. split; [exact Htr|]. apply H200. reflexivity.
Defined.

(** X10, on a listing on which [int] raises. *)
Lemma status_route_answers_witness :
  overlong_volume Sample.overlong Script.init
  /\ status_code (fst (Main.get_status Sample.overlong Sample.str Script.init))
     = 500
  /\ body (fst (Main.get_status Sample.overlong Sample.str Script.init))
     = ErrorJson false
         ("Error getting status: " ++ Sample.str ValueError).
Proof.
  assert (Hlong : overlong_volume Sample.overlong Script.init)
    by (exists Sample.overlong_text; split; vm_compute; reflexivity).
  split; [exact Hlong|].
  destruct (status_route_answers Sample.overlong Sample.str Script.init)
    as (es & _ & Hiff & [(H200 & _)|(H500 & e & Hbody & Hraise & _)]).
  - rewrite (proj2 Hiff (or_intror Hlong)) in H200. discriminate H200.
  - split; [exact H500|]. rewrite Hbody.
    assert (He : e = ValueError).
    { assert (Hv : fst (get_status Sample.overlong Script.init)
                   = Raise ValueError) by (vm_compute; reflexivity).
      congruence. }
    rewrite He. reflexivity.
Defined.

(** X11, on a tool that can be started. *)
Lemma routes_with_a_working_tool_witness :
  starts Script.flaky
  /\ existsb sink_overlong (split_lines Script.sinks_text) = false
  /\ status_code (fst (Main.get_status Script.flaky Sample.str Script.init))
     = 200
  /\ forall r,
       exists s,
         body (fst (serve Script.flaky Sample.str r Script.init))
         = SummaryJson s
         /\ status_code (fst (serve Script.flaky Sample.str r Script.init))
            = if Nat.ltb 0 (Summary.streams_affected s) then 200 else 404.
Proof.
  assert (Hlong : existsb sink_overlong (split_lines Script.sinks_text)
                  = false) by (vm_compute; reflexivity).
  split; [exact flaky_starts|]. split; [exact Hlong|].
  apply (routes_with_a_working_tool Script.flaky Sample.str Script.init
           flaky_starts).
  intros out Hout.
  assert (Hsame : out = Script.sinks_text)
    by (change (Exited 0 Script.sinks_text = Exited 0 out) in Hout;
        congruence).
  rewrite Hsame. exact Hlong.
Defined.

(** X12, on a tool that is not found and on a listing on which [int]
    raises. *)
Lemma mute_route_error_witness :
  (status_code (fst (serve Script.missing Sample.str RouteToggle Script.init))
   = 500
   /\ body (fst (serve Script.missing Sample.str RouteToggle Script.init))
      = ErrorJson false
          (route_error RouteToggle ++ Sample.str (OSError FileNotFoundError))
   /\ exists es,
        trace (snd (serve Script.missing Sample.str RouteToggle Script.init))
        = trace Script.init ++ es
        /\ raised_by (OSError FileNotFoundError) es)
  /\ overlong_volume Sample.overlong Script.init
  /\ status_code (fst (serve Sample.overlong Sample.str RouteMute Script.init))
     = 500.
Proof.
  split; [|split].
  - assert (Hraise : fst (perform Script.missing (route_operation RouteToggle)
                            Script.init)
                     = Raise (OSError FileNotFoundError))
      by (vm_compute; reflexivity).
    destruct (mute_route_error Script.missing Sample.str RouteToggle
                Script.init) as (es & Htr & _ & H500 & Hbody).
    split; [apply H500; eexists; exact Hraise|].
    destruct (Hbody _ Hraise) as (Hb & _ & Hes).
    split; [exact Hb|]. exists es. auto.
  - exists Sample.overlong_text. split; vm_compute; reflexivity.
  - destruct (mute_route_error Sample.overlong Sample.str RouteMute
                Script.init) as (es & _ & H500 & _).
    apply H500. right.
    exists Sample.overlong_text. split; vm_compute; reflexivity.
Defined.

(** X13, on a printed listing of two playback streams. *)
Lemma playback_listing_parsed_witness :
  Forall (fun b => PlaybackBlock.ok b = true) Sample.playback
  /\ fst (_get_sink_inputs Sample.pactl Script.init)
     = Val [Script.stream42; Script.stream43].
Proof.
  assert (H : Forall (fun b => PlaybackBlock.ok b = true) Sample.playback)
    by (repeat constructor).
  split; [exact H|].
  exact (playback_listing_parsed Sample.pactl Script.init Sample.playback
           H eq_refl).
Defined.

(** X14, on a printed listing of one recording stream. *)
Lemma recording_listing_parsed_witness :
  Forall (fun b => RecordingBlock.ok b = true) Sample.recording
  /\ fst (_get_source_outputs Sample.pactl Script.init) = Val [Script.stream7].
Proof.
  assert (H : Forall (fun b => RecordingBlock.ok b = true) Sample.recording)
    by (repeat constructor).
  split; [exact H|].
  exact (recording_listing_parsed Sample.pactl Script.init Sample.recording
           H eq_refl).
Defined.
